(** * Bank API: the in-memory ledger store and the transaction service

  A shallow embedding of
    - [internal/api_errors/errors.go]  (module [errors]),
    - [internal/enum]                  (module [enum]),
    - [internal/db/models]             (modules [Account], [Transaction]),
    - [internal/db/memory/db.go]       (module [memory]),
    - [internal/db] (the adapter interface, module [db]),
    - [internal/service/transaction.go] (module [service]).

  Balances and amounts are Go [float64] values; they are modelled by
  Rocq's primitive binary64 floats, whose [add], [sub] and [ltb] are the
  IEEE 754 operations Go compiles [+=], [-=] and [<] to.  The two Go maps
  are finite maps keyed by strings.  Methods with a pointer receiver are
  state transformers of the store; the read/write lock makes each method
  one atomic step, which is how it is modelled.  Logging is dropped. *)

From Stdlib Require Import ZArith Floats Lia Ascii String.
From stdpp Require Import base option list strings gmap fin_maps.

(** ** A small state monad for methods with a pointer receiver *)

Definition M (S A : Type) : Type := S -> A * S.

Definition ret {S A} (a : A) : M S A := fun s => (a, s).

Definition bind {S A B} (m : M S A) (k : A -> M S B) : M S B :=
  fun s => let '(a, s') := m s in k a s'.

#[global] Instance M_ret S : MRet (M S) := fun A a => ret a.
#[global] Instance M_bind S : MBind (M S) := fun A B k m => bind m k.

(** ** internal/api_errors *)

Module errors.

Record APIError := {
  Code : string;
  Message : string;
  HTTPStatus : Z
}.

Definition NewAPIError (code message : string) (httpStatus : Z) : APIError :=
  {| Code := code; Message := message; HTTPStatus := httpStatus |}.

Definition StatusBadRequest : Z := 400.
Definition StatusInternalServerError : Z := 500.

Definition ErrAccountNotFound : APIError :=
  NewAPIError "ACCOUNT_NOT_FOUND" "account not found" StatusBadRequest.

Definition ErrInsufficientBalance : APIError :=
  NewAPIError "INSUFFICIENT_BALANCE" "insufficient balance" StatusBadRequest.

Definition ErrUnknown : APIError :=
  NewAPIError "UNKNOWN" "unknown error" StatusInternalServerError.

End errors.

(** ** internal/enum *)

Module enum.

(** [type TransactionType string]: an open string type. *)
Definition TransactionType : Type := string.

Definition Deposit : TransactionType := "deposit".
Definition Withdrawal : TransactionType := "withdrawal".

Definition TransactionTypeFromString (s : string) : TransactionType :=
  if String.eqb s "deposit" then Deposit
  else if String.eqb s "withdrawal" then Withdrawal
  else "".

End enum.

(** ** internal/db/models *)

(** [time.Time], as an instant on the clock's own scale. *)
Definition Time : Type := Z.

Module Account.
Record t := mk {
  ID : string;
  Owner : string;
  Balance : float
}.

Definition with_Balance (a : t) (b : float) : t :=
  {| ID := ID a; Owner := Owner a; Balance := b |}.
End Account.

Module Transaction.
Record t := mk {
  ID : string;
  AccountID : string;
  Type_ : enum.TransactionType;
  Amount : float;
  Timestamp : Time
}.
End Transaction.

(** ** internal/db/memory *)

Module memory.
Import errors.

Record inMemoryDatabase := {
  accounts : gmap string Account.t;
  transactions : gmap string (list Transaction.t)
}.

Definition NewInMemoryDatabase : inMemoryDatabase :=
  {| accounts := ∅; transactions := ∅ |}.

Definition CreateAccount (account : Account.t) : M inMemoryDatabase unit :=
  fun d =>
    (tt, {| accounts := <[Account.ID account := account]> (accounts d);
            transactions := <[Account.ID account := []]> (transactions d) |}).

Definition GetAccountByID (id : string)
  : M inMemoryDatabase (Account.t + APIError) :=
  fun d =>
    match accounts d !! id with
    | None => (inr ErrAccountNotFound, d)
    | Some acc => (inl acc, d)
    end.

(** Go ranges over the map in an unspecified order; [map_to_list] fixes one. *)
Definition GetAllAccounts : M inMemoryDatabase (list Account.t) :=
  fun d => (snd <$> map_to_list (accounts d), d).

(** The tail of [CreateTransaction]: the two map writes after the switch.
    Reading a missing key of [d.transactions] gives the nil slice. *)
Definition store_transaction (transaction : Transaction.t) (account : Account.t)
    (d : inMemoryDatabase) : inMemoryDatabase :=
  let k := Transaction.AccountID transaction in
  {| accounts := <[k := account]> (accounts d);
     transactions :=
       <[k := default [] (transactions d !! k) ++ [transaction]]>
         (transactions d) |}.

Definition CreateTransaction (transaction : Transaction.t)
  : M inMemoryDatabase (option APIError) :=
  fun d =>
    match accounts d !! Transaction.AccountID transaction with
    | None => (Some ErrAccountNotFound, d)
    | Some account =>
        if String.eqb (Transaction.Type_ transaction) enum.Deposit then
          (None,
           store_transaction transaction
             (Account.with_Balance account
                (PrimFloat.add (Account.Balance account)
                               (Transaction.Amount transaction))) d)
        else if String.eqb (Transaction.Type_ transaction) enum.Withdrawal then
          if PrimFloat.ltb (Account.Balance account)
                           (Transaction.Amount transaction)
          then (Some ErrInsufficientBalance, d)
          else
            (None,
             store_transaction transaction
               (Account.with_Balance account
                  (PrimFloat.sub (Account.Balance account)
                                 (Transaction.Amount transaction))) d)
        else (Some ErrUnknown, d)
    end.

Definition GetTransactionsByAccountID (id : string)
  : M inMemoryDatabase (list Transaction.t + APIError) :=
  fun d =>
    match transactions d !! id with
    | None => (inr ErrAccountNotFound, d)
    | Some txs => (inl txs, d)
    end.

End memory.

(** ** internal/db: the adapter interface and its only implementation *)

Module db.
Import errors.

Class DatabaseAdapter (D : Type) := {
  CreateAccount : Account.t -> M D unit;
  GetAccountByID : string -> M D (Account.t + APIError);
  GetAllAccounts : M D (list Account.t);
  CreateTransaction : Transaction.t -> M D (option APIError);
  GetTransactionsByAccountID : string -> M D (list Transaction.t + APIError)
}.

(** [NewDatabaseAdapter] returns the in-memory store. *)
#[global] Instance NewDatabaseAdapter : DatabaseAdapter memory.inMemoryDatabase := {|
  CreateAccount := memory.CreateAccount;
  GetAccountByID := memory.GetAccountByID;
  GetAllAccounts := memory.GetAllAccounts;
  CreateTransaction := memory.CreateTransaction;
  GetTransactionsByAccountID := memory.GetTransactionsByAccountID
|}.

(** An adapter that forwards to another one and keeps the list of the
    transactions it was asked to create, oldest first.  It is used to
    state which store calls a service method makes. *)
Record recorder (D : Type) := Recorder {
  calls : list Transaction.t;
  inner : D
}.
Arguments Recorder {D} _ _.
Arguments calls {D} _.
Arguments inner {D} _.

Definition forward {D A} (m : M D A) : M (recorder D) A :=
  fun r => let '(a, d') := m (inner r) in (a, Recorder (calls r) d').

#[global] Instance recorder_adapter {D} `{DatabaseAdapter D}
  : DatabaseAdapter (recorder D) := {|
  CreateAccount a := forward (CreateAccount a);
  GetAccountByID id := forward (GetAccountByID id);
  GetAllAccounts := forward GetAllAccounts;
  CreateTransaction tx :=
    fun r => forward (CreateTransaction tx) (Recorder (calls r ++ [tx]) (inner r));
  GetTransactionsByAccountID id := forward (GetTransactionsByAccountID id)
|}.

End db.

(** ** internal/service/transaction.go *)

Module service.
Import errors.

(** [uuid.New()] and [time.Now()] read the outside world: the values they
    will return are an input of the model, consumed one per call. *)
Record env := Env {
  uuid_source : nat -> string;
  uuid_drawn : nat;
  clock : nat -> Time;
  clock_read : nat
}.

Definition uuid_New : M env string :=
  fun e => (uuid_source e (uuid_drawn e),
            Env (uuid_source e) (S (uuid_drawn e)) (clock e) (clock_read e)).

Definition time_Now : M env Time :=
  fun e => (clock e (clock_read e),
            Env (uuid_source e) (uuid_drawn e) (clock e) (S (clock_read e))).

(** The world after one identifier and one timestamp have been taken. *)
Definition tick (e : env) : env :=
  Env (uuid_source e) (S (uuid_drawn e)) (clock e) (S (clock_read e)).

(** The record a service method builds from the next identifier and the
    next reading of the clock. *)
Definition new_transaction (e : env) (accountID : string)
    (txType : enum.TransactionType) (amount : float) : Transaction.t :=
  Transaction.mk (uuid_source e (uuid_drawn e)) accountID txType amount
                 (clock e (clock_read e)).

Section Service.
Context {D : Type} `{db.DatabaseAdapter D}.

(** The state a service method runs in: the outside world and the store
    behind the [db] field. *)
Definition in_env {A} (m : M env A) : M (env * D) A :=
  fun s => let '(a, e') := m (fst s) in (a, (e', snd s)).

Definition in_db {A} (m : M D A) : M (env * D) A :=
  fun s => let '(a, d') := m (snd s) in (a, (fst s, d')).

(** [wrapError] logs the error and returns it. *)
Definition wrapError (err : APIError) : APIError := err.

(** The request body of [CreateTransaction], after decoding. *)
Record CreateTransactionRequest := {
  req_Type : string;
  req_Amount : float
}.

Definition CreateTransaction (id : string) (transaction : CreateTransactionRequest)
  : M (env * D) (Transaction.t + APIError) :=
  let txType := enum.TransactionTypeFromString (req_Type transaction) in
  txId ← in_env uuid_New;
  now ← in_env time_Now;
  let tx := Transaction.mk txId id txType (req_Amount transaction) now in
  r ← in_db (db.CreateTransaction tx);
  match r with
  | Some err => mret (inr (wrapError err))
  | None => mret (inl tx)
  end.

Definition GetTransactionsByAccountID (accountID : string)
  : M (env * D) (list Transaction.t + APIError) :=
  r ← in_db (db.GetTransactionsByAccountID accountID);
  match r with
  | inr err => mret (inr (wrapError err))
  | inl txs => mret (inl txs)
  end.

Definition Transfer (from to : string) (amount : float)
  : M (env * D) (option APIError) :=
  wid ← in_env uuid_New;
  wts ← in_env time_Now;
  let withdrawalFrom := Transaction.mk wid from enum.Withdrawal amount wts in
  r ← in_db (db.CreateTransaction withdrawalFrom);
  match r with
  | Some err => mret (Some (wrapError err))
  | None =>
      did ← in_env uuid_New;
      dts ← in_env time_Now;
      let depositTo := Transaction.mk did to enum.Deposit amount dts in
      r' ← in_db (db.CreateTransaction depositTo);
      match r' with
      | Some err => mret (Some (wrapError err))
      | None => mret None
      end
  end.

End Service.
End service.

(** ** Sequences of store calls *)

Module history.
Import errors memory.

(** A mutating call on the store. *)
Inductive call :=
  | CallCreateAccount (account : Account.t)
  | CallCreateTransaction (transaction : Transaction.t).

Definition do_call (c : call) : M inMemoryDatabase (option APIError) :=
  match c with
  | CallCreateAccount a => _ ← CreateAccount a; mret None
  | CallCreateTransaction tx => CreateTransaction tx
  end.

(** Runs the calls in order and keeps each call with what it returned. *)
Fixpoint run (cs : list call)
  : M inMemoryDatabase (list (call * option APIError)) :=
  match cs with
  | [] => mret []
  | c :: rest =>
      r ← do_call c;
      log ← run rest;
      mret ((c, r) :: log)
  end.

(** Runs [CreateTransaction] on each transaction in order. *)
Fixpoint run_transactions (txs : list Transaction.t)
  : M inMemoryDatabase (list (Transaction.t * option APIError)) :=
  match txs with
  | [] => mret []
  | tx :: rest =>
      r ← CreateTransaction tx;
      log ← run_transactions rest;
      mret ((tx, r) :: log)
  end.

(** Whether an entry of a log is a committed transaction of account [id]. *)
Definition committed_for (id : string) (entry : Transaction.t * option APIError)
  : bool :=
  match snd entry with
  | None => String.eqb (Transaction.AccountID (fst entry)) id
  | Some _ => false
  end.

(** The transactions of account [id] that were committed, in log order. *)
Definition committed (id : string) (log : list (Transaction.t * option APIError))
  : list Transaction.t :=
  fst <$> List.filter (committed_for id) log.

(** What one committed transaction does to a balance. *)
Definition apply_to_balance (b : float) (tx : Transaction.t) : float :=
  if String.eqb (Transaction.Type_ tx) enum.Deposit
  then PrimFloat.add b (Transaction.Amount tx)
  else PrimFloat.sub b (Transaction.Amount tx).

(** The history of account [id] that a log of calls accounts for: creating
    the account starts an empty history, each committed transaction of the
    account extends it. *)
Definition history_step (id : string) (h : list Transaction.t)
    (entry : call * option APIError) : list Transaction.t :=
  match entry with
  | (CallCreateAccount a, _) =>
      if String.eqb (Account.ID a) id then [] else h
  | (CallCreateTransaction tx, None) =>
      if String.eqb (Transaction.AccountID tx) id then h ++ [tx] else h
  | (CallCreateTransaction _, Some _) => h
  end.

Definition committed_since_created (id : string)
    (log : list (call * option APIError)) : list Transaction.t :=
  fold_left (history_step id) log [].

(** The two maps of the store have the same keys. *)
Definition same_keys (d : inMemoryDatabase) : Prop :=
  forall id, accounts d !! id = None <-> transactions d !! id = None.

End history.

(** ** The formula of the balance as the specification words it *)

Module spec.

Definition is_deposit (tx : Transaction.t) : bool :=
  String.eqb (Transaction.Type_ tx) enum.Deposit.

Definition is_withdrawal (tx : Transaction.t) : bool :=
  String.eqb (Transaction.Type_ tx) enum.Withdrawal.

Definition sum (amounts : list float) : float :=
  fold_left PrimFloat.add amounts 0%float.

(** [initial_balance + sum(deposits) - sum(withdrawals)] over the committed
    transactions. *)
Definition expected_balance (initial_balance : float)
    (committed : list Transaction.t) : float :=
  PrimFloat.sub
    (PrimFloat.add initial_balance
       (sum (Transaction.Amount <$> List.filter is_deposit committed)))
    (sum (Transaction.Amount <$> List.filter is_withdrawal committed)).

End spec.

(** ** Signs of binary64 values, on their [spec_float] form *)

Module binary64.

(** Zero of either sign, a positive finite value or plus infinity: the
    values [x] with [0 <= x]. *)
Definition not_negative (x : spec_float) : Prop :=
  match x with
  | S754_zero _ => True
  | S754_infinity s | S754_finite s _ _ => s = false
  | S754_nan => False
  end.

(** A value that carries the sign [s]; a NaN carries none. *)
Definition is_signed (s : bool) (x : spec_float) : Prop :=
  match x with
  | S754_zero s' | S754_infinity s' | S754_finite s' _ _ => s' = s
  | S754_nan => False
  end.

(** The amounts the transport layer lets through: finite and above zero. *)
Definition positive_finite (a : float) : Prop :=
  PrimFloat.is_finite a = true /\ PrimFloat.ltb 0%float a = true.

End binary64.

(** ** Sample data: the scenarios of the test suites *)

Module sample.
Import memory.

Definition alice : Account.t := Account.mk "A" "Alice" 100%float.
Definition bob : Account.t := Account.mk "B" "Bob" 0%float.
Definition carol : Account.t := Account.mk "C" "Carol" 10%float.

(** A store holding the three accounts, none with any transaction yet. *)
Definition bank : inMemoryDatabase :=
  snd (CreateAccount carol
         (snd (CreateAccount bob
                 (snd (CreateAccount alice NewInMemoryDatabase))))).

Definition at_noon : Time := 43200%Z.

Definition withdraw20 : Transaction.t :=
  Transaction.mk "t1" "C" enum.Withdrawal 20%float at_noon.

Definition deposit5 : Transaction.t :=
  Transaction.mk "t2" "C" enum.Deposit 5%float at_noon.

Definition refund5 : Transaction.t :=
  Transaction.mk "t3" "C" "refund" 5%float at_noon.

(** An account at 2^53, where binary64 stops holding every integer, and
    two deposits of 1. *)
Definition dana : Account.t := Account.mk "D" "Dana" 9007199254740992%float.

Definition two_deposits : list Transaction.t :=
  [Transaction.mk "t4" "D" enum.Deposit 1%float at_noon;
   Transaction.mk "t5" "D" enum.Deposit 1%float at_noon].



Definition vault : inMemoryDatabase :=
  snd (CreateAccount dana NewInMemoryDatabase).


(** An account at one tenth, and deposits of two and of three tenths (the
    binary64 values nearest to 0.1, 0.2 and 0.3). *)
Definition fred : Account.t := Account.mk "F" "Fred" 0x1.999999999999ap-4%float.

Definition tenths : list Transaction.t :=
  [Transaction.mk "t13" "F" enum.Deposit 0x1.999999999999ap-3%float at_noon;
   Transaction.mk "t14" "F" enum.Deposit 0x1.3333333333333p-2%float at_noon].

Definition purse : inMemoryDatabase :=
  snd (CreateAccount fred NewInMemoryDatabase).

Definition withdraw30 : Transaction.t :=
  Transaction.mk "t15" "A" enum.Withdrawal 30%float at_noon.

(** The run of the service tests: 100, then +50, -20, +30, -60, and a
    withdrawal of 500 that is refused. *)
Definition busy_day : list Transaction.t :=
  [Transaction.mk "t8" "A" enum.Deposit 50%float at_noon;
   Transaction.mk "t9" "A" enum.Withdrawal 20%float at_noon;
   Transaction.mk "t10" "A" enum.Deposit 30%float at_noon;
   Transaction.mk "t11" "A" enum.Withdrawal 500%float at_noon;
   Transaction.mk "t12" "A" enum.Withdrawal 60%float at_noon].

(** Identifiers ["x"], ["xx"], ... and a clock ticking once per reading. *)
Definition world : service.env :=
  service.Env (fun n => String.string_of_list_ascii (repeat "x"%char (S n))) 0
              (fun n => Z.of_nat n) 0.

End sample.

(** ** internal/enum: the [String] method *)

Module TransactionType.

(** [func (t TransactionType) String() string] is [string(t)]. *)
Definition String (t : enum.TransactionType) : string := t.

End TransactionType.

(** ** internal/service/account.go *)

Module account_service.
Import errors.

(** [schemas.CreateAccountRequest]: [InitialBalance] is a [*float64], nil
    when the body did not carry the field. *)
Record CreateAccountRequest := {
  req_Owner : string;
  req_InitialBalance : option float
}.

(** A call of a Go function returns a value or panics. *)
Inductive outcome (A : Type) :=
  | Returned (a : A)
  | Panicked.
Arguments Returned {A} _.
Arguments Panicked {A}.

Section Service.
Context {D : Type} `{db.DatabaseAdapter D}.

(** The id is generated first; the struct literal then dereferences
    [account.InitialBalance], which panics on nil, before the store is
    called. *)
Definition CreateAccount (account : CreateAccountRequest)
  : M (service.env * D) (outcome Account.t) :=
  id ← service.in_env service.uuid_New;
  match req_InitialBalance account with
  | None => mret Panicked
  | Some balance =>
      let acc := Account.mk id (req_Owner account) balance in
      _ ← service.in_db (db.CreateAccount acc);
      mret (Returned acc)
  end.

Definition GetAccountByID (id : string)
  : M (service.env * D) (Account.t + APIError) :=
  r ← service.in_db (db.GetAccountByID id);
  match r with
  | inr err => mret (inr err)
  | inl acc => mret (inl acc)
  end.

Definition GetAllAccounts : M (service.env * D) (list Account.t) :=
  service.in_db db.GetAllAccounts.

(** [CreateAccount] on each request in turn, as the service tests do; a
    panic ends the run. *)
Fixpoint create_all (requests : list CreateAccountRequest)
  : M (service.env * D) (outcome (list Account.t)) :=
  match requests with
  | [] => mret (Returned [])
  | request :: rest =>
      r ← CreateAccount request;
      match r with
      | Panicked => mret Panicked
      | Returned acc =>
          rs ← create_all rest;
          match rs with
          | Panicked => mret Panicked
          | Returned accs => mret (Returned (acc :: accs))
          end
      end
  end.

End Service.
End account_service.

(** ** What the store keeps true, and the replay of a history *)

Module ledger.
Import errors memory history.

(** Every account is stored under its own id. *)
Definition filed_by_id (d : inMemoryDatabase) : Prop :=
  forall k acc, accounts d !! k = Some acc -> Account.ID acc = k.

(** Every recorded transaction is kept under the id of its account. *)
Definition histories_filed (d : inMemoryDatabase) : Prop :=
  forall k txs,
    transactions d !! k = Some txs ->
    Forall (fun tx => Transaction.AccountID tx = k) txs.

(** No stored balance is below zero. *)
Definition no_overdraft (d : inMemoryDatabase) : Prop :=
  forall k acc,
    accounts d !! k = Some acc ->
    PrimFloat.leb 0%float (Account.Balance acc) = true.

(** The account as it was given to the latest [CreateAccount] of [id]. *)
Definition opening_step (id : string) (o : option Account.t)
    (entry : call * option APIError) : option Account.t :=
  match fst entry with
  | CallCreateAccount a => if String.eqb (Account.ID a) id then Some a else o
  | CallCreateTransaction _ => o
  end.

Definition opening (id : string) (log : list (call * option APIError))
  : option Account.t :=
  fold_left (opening_step id) log None.

(** The account [a] after the transactions [txs] have been applied to its
    balance, first to last. *)
Definition replay (a : Account.t) (txs : list Transaction.t) : Account.t :=
  Account.with_Balance a (fold_left apply_to_balance txs (Account.Balance a)).

(** What [Transfer] returns, read off the store it is given. *)
Definition transfer_result (d : inMemoryDatabase) (from to : string)
    (amount : float) : option APIError :=
  match accounts d !! from with
  | None => Some ErrAccountNotFound
  | Some source =>
      if PrimFloat.ltb (Account.Balance source) amount
      then Some ErrInsufficientBalance
      else if String.eqb from to then None
      else match accounts d !! to with
           | None => Some ErrAccountNotFound
           | Some _ => None
           end
  end.

End ledger.

(** ** More sample data *)

Module cases.
Import memory.

Definition open_alice : account_service.CreateAccountRequest :=
  {| account_service.req_Owner := "Alice";
     account_service.req_InitialBalance := Some 20%float |}.

Definition open_bob : account_service.CreateAccountRequest :=
  {| account_service.req_Owner := "Bob";
     account_service.req_InitialBalance := Some 100%float |}.

Definition deposit_request : service.CreateTransactionRequest :=
  {| service.req_Type := "deposit"; service.req_Amount := 10%float |}.

Definition withdraw_all : Transaction.t :=
  Transaction.mk "t16" "A" enum.Withdrawal 100%float sample.at_noon.



End cases.

(** * Properties of the store *)

Section StoreFacts.
Import errors memory.

Implicit Types (d : inMemoryDatabase) (tx : Transaction.t) (acc : Account.t).

(** [CreateTransaction] on a missing account, on a deposit and on a
    withdrawal. *)

Lemma CreateTransaction_missing tx d :
  accounts d !! Transaction.AccountID tx = None ->
  CreateTransaction tx d = (Some ErrAccountNotFound, d).
Proof. intros Hm. unfold CreateTransaction. by rewrite Hm. Qed.

Lemma CreateTransaction_deposit tx d acc :
  accounts d !! Transaction.AccountID tx = Some acc ->
  Transaction.Type_ tx = enum.Deposit ->
  CreateTransaction tx d =
    (None,
     store_transaction tx
       (Account.with_Balance acc
          (PrimFloat.add (Account.Balance acc) (Transaction.Amount tx))) d).
Proof. intros Hacc Hty. unfold CreateTransaction. by rewrite Hacc, Hty. Qed.

Lemma CreateTransaction_withdrawal tx d acc :
  accounts d !! Transaction.AccountID tx = Some acc ->
  Transaction.Type_ tx = enum.Withdrawal ->
  CreateTransaction tx d =
    if PrimFloat.ltb (Account.Balance acc) (Transaction.Amount tx)
    then (Some ErrInsufficientBalance, d)
    else
      (None,
       store_transaction tx
         (Account.with_Balance acc
            (PrimFloat.sub (Account.Balance acc) (Transaction.Amount tx))) d).
Proof. intros Hacc Hty. unfold CreateTransaction. by rewrite Hacc, Hty. Qed.

(** A call that returns an error returns the store it was given, and the
    error is one of the three of the switch. *)
Lemma CreateTransaction_error tx d err d' :
  CreateTransaction tx d = (Some err, d') ->
  d' = d /\
  (err = ErrAccountNotFound /\ accounts d !! Transaction.AccountID tx = None
   \/ err = ErrInsufficientBalance
   \/ err = ErrUnknown).
Proof.
  unfold CreateTransaction.
  destruct (accounts d !! Transaction.AccountID tx) as [acc|] eqn:Hacc.
  - destruct (String.eqb (Transaction.Type_ tx) enum.Deposit); [discriminate |].
    destruct (String.eqb (Transaction.Type_ tx) enum.Withdrawal).
    + destruct (PrimFloat.ltb _ _); [| discriminate].
      intros [= <- <-]. auto.
    + intros [= <- <-]. auto.
  - intros [= <- <-]. auto.
Qed.

(** A call that commits found the account, had one of the two known types
    and produced the store of [store_transaction]. *)
Lemma CreateTransaction_commit tx d d' :
  CreateTransaction tx d = (None, d') ->
  exists acc,
    accounts d !! Transaction.AccountID tx = Some acc /\
    d' = store_transaction tx
           (Account.with_Balance acc
              (history.apply_to_balance (Account.Balance acc) tx)) d /\
    (Transaction.Type_ tx = enum.Deposit
     \/ Transaction.Type_ tx = enum.Withdrawal /\
        PrimFloat.ltb (Account.Balance acc) (Transaction.Amount tx) = false).
Proof.
  unfold CreateTransaction, history.apply_to_balance.
  destruct (accounts d !! Transaction.AccountID tx) as [acc|] eqn:Hacc;
    [| discriminate].
  destruct (String.eqb (Transaction.Type_ tx) enum.Deposit) eqn:Hd.
  - intros [= <-]. apply String.eqb_eq in Hd.
    exists acc. repeat split; auto.
  - destruct (String.eqb (Transaction.Type_ tx) enum.Withdrawal) eqn:Hw;
      [| discriminate].
    destruct (PrimFloat.ltb _ _) eqn:Hlt; [discriminate |].
    intros [= <-]. apply String.eqb_eq in Hw.
    exists acc. repeat split; auto.
Qed.

Lemma store_transaction_accounts tx acc d :
  accounts (store_transaction tx acc d) =
    <[Transaction.AccountID tx := acc]> (accounts d).
Proof. reflexivity. Qed.

Lemma store_transaction_transactions tx acc d :
  transactions (store_transaction tx acc d) =
    <[Transaction.AccountID tx :=
        default [] (transactions d !! Transaction.AccountID tx) ++ [tx]]>
      (transactions d).
Proof. reflexivity. Qed.

End StoreFacts.

(** * Single calls on the store *)

Section SingleCalls.
Import errors memory.

(** C1. Whenever [CreateTransaction] returns an error, the store it leaves
    is the store it was given (all balances and all histories), and the
    error is [ErrAccountNotFound] (only when the account is absent),
    [ErrInsufficientBalance] or [ErrUnknown]; an absent account gives
    [ErrAccountNotFound]; and a withdrawal whose amount is above the
    balance of its stored account fails with [ErrInsufficientBalance] and
    leaves the store as it was. *)
Theorem CreateTransaction_failure_no_mutation
    (tx : Transaction.t) (d : inMemoryDatabase) :
  (forall err d',
      CreateTransaction tx d = (Some err, d') ->
      d' = d /\
      (err = ErrAccountNotFound /\
         accounts d !! Transaction.AccountID tx = None
       \/ err = ErrInsufficientBalance
       \/ err = ErrUnknown))
  /\ (accounts d !! Transaction.AccountID tx = None ->
      CreateTransaction tx d = (Some ErrAccountNotFound, d))
  /\ (forall acc,
        accounts d !! Transaction.AccountID tx = Some acc ->
        Transaction.Type_ tx = enum.Withdrawal ->
        PrimFloat.ltb (Account.Balance acc) (Transaction.Amount tx) = true ->
        CreateTransaction tx d = (Some ErrInsufficientBalance, d)).
Proof.
  split; [| split].
  - intros err d'. apply CreateTransaction_error.
  - apply CreateTransaction_missing.
  - intros acc Hacc Hty Hlt.
    rewrite (CreateTransaction_withdrawal tx d acc Hacc Hty).
    by rewrite Hlt.
Qed.

Lemma CreateTransaction_failure_no_mutation_witness :
  CreateTransaction sample.withdraw20 sample.bank
    = (Some ErrInsufficientBalance, sample.bank)
  /\ accounts (snd (CreateTransaction sample.withdraw20 sample.bank))
        !! "C" = Some sample.carol
  /\ transactions (snd (CreateTransaction sample.withdraw20 sample.bank))
        !! "C" = Some [].
Proof.
  destruct (CreateTransaction_failure_no_mutation
              sample.withdraw20 sample.bank) as (Hsame & _ & Hlow).
  assert (Hrun : CreateTransaction sample.withdraw20 sample.bank
                 = (Some ErrInsufficientBalance, sample.bank)).
  { apply (Hlow sample.carol); vm_compute; reflexivity. }
  destruct (Hsame _ _ Hrun) as [_ _].
  split; [exact Hrun |].
  rewrite Hrun. split; vm_compute; reflexivity.
Defined.

(** Scenario 1: 100, withdraw 30: balance 70 and one transaction recorded. *)
Example withdraw_30_of_100 :
  let '(r, d') := CreateTransaction sample.withdraw30 sample.bank in
  r = None
  /\ fst (GetAccountByID "A" d') = inl (Account.mk "A" "Alice" 70%float)
  /\ fst (GetTransactionsByAccountID "A" d') = inl [sample.withdraw30].
Proof. vm_compute. repeat split. Qed.

(** Scenario 4: a transaction on an id that is not in the store. *)
Example transaction_on_unknown_account :
  CreateTransaction sample.withdraw30 NewInMemoryDatabase
    = (Some ErrAccountNotFound, NewInMemoryDatabase).
Proof. reflexivity. Qed.

(** C6. A deposit on a stored account always commits: the call returns no
    error, the account's balance becomes the old balance plus the amount
    (its id and owner stay), the transaction is put at the end of the
    account's history, and no other entry of either map changes. *)
Theorem CreateTransaction_deposit_commits
    (tx : Transaction.t) (d : inMemoryDatabase) (acc : Account.t) :
  accounts d !! Transaction.AccountID tx = Some acc ->
  Transaction.Type_ tx = enum.Deposit ->
  exists d',
    CreateTransaction tx d = (None, d') /\
    accounts d' =
      <[Transaction.AccountID tx :=
          Account.with_Balance acc
            (PrimFloat.add (Account.Balance acc) (Transaction.Amount tx))]>
        (accounts d) /\
    transactions d' =
      <[Transaction.AccountID tx :=
          default [] (transactions d !! Transaction.AccountID tx) ++ [tx]]>
        (transactions d).
Proof.
  intros Hacc Hty. eexists. split.
  - by apply CreateTransaction_deposit.
  - split; reflexivity.
Qed.

Lemma CreateTransaction_deposit_commits_witness :
  exists d',
    CreateTransaction sample.deposit5 sample.bank = (None, d') /\
    accounts d' = <["C" := Account.mk "C" "Carol" 15%float]>
                    (accounts sample.bank) /\
    transactions d' = <["C" := [sample.deposit5]]>
                        (transactions sample.bank).
Proof.
  destruct (CreateTransaction_deposit_commits
              sample.deposit5 sample.bank sample.carol)
    as (d' & Hrun & Haccs & Htxs).
  - vm_compute; reflexivity.
  - reflexivity.
  - exists d'. split; [exact Hrun |]. split.
    + rewrite Haccs. reflexivity.
    + rewrite Htxs. reflexivity.
Defined.

(** C7. A transaction on a stored account whose type is neither
    ["deposit"] nor ["withdrawal"] fails with [ErrUnknown] and leaves the
    store as it was. *)
Theorem CreateTransaction_unknown_type
    (tx : Transaction.t) (d : inMemoryDatabase) (acc : Account.t) :
  accounts d !! Transaction.AccountID tx = Some acc ->
  Transaction.Type_ tx <> enum.Deposit ->
  Transaction.Type_ tx <> enum.Withdrawal ->
  CreateTransaction tx d = (Some ErrUnknown, d).
Proof.
  intros Hacc Hd Hw. unfold CreateTransaction. rewrite Hacc.
  apply String.eqb_neq in Hd, Hw. by rewrite Hd, Hw.
Qed.

Lemma CreateTransaction_unknown_type_witness :
  CreateTransaction sample.refund5 sample.bank = (Some ErrUnknown, sample.bank).
Proof.
  apply (CreateTransaction_unknown_type sample.refund5 sample.bank sample.carol).
  - vm_compute; reflexivity.
  - discriminate.
  - discriminate.
Defined.

(** C8. Two consecutive reads with the same id return the same result
    (the same account or the same error, the same transactions in the
    same order) and leave the store as it was. *)
Theorem reads_are_repeatable (d : inMemoryDatabase) (id : string) :
  (exists r,
      (r1 ← GetAccountByID id; r2 ← GetAccountByID id; mret (r1, r2)) d
        = ((r, r), d)
      /\ GetAccountByID id d = (r, d))
  /\ (exists r,
        (r1 ← GetTransactionsByAccountID id;
         r2 ← GetTransactionsByAccountID id; mret (r1, r2)) d
          = ((r, r), d)
        /\ GetTransactionsByAccountID id d = (r, d)).
Proof.
  split.
  - exists (fst (GetAccountByID id d)).
    unfold mbind, M_bind, bind, mret, M_ret, ret, GetAccountByID.
    destruct (accounts d !! id) eqn:E; simpl; rewrite ?E; split; reflexivity.
  - exists (fst (GetTransactionsByAccountID id d)).
    unfold mbind, M_bind, bind, mret, M_ret, ret, GetTransactionsByAccountID.
    destruct (transactions d !! id) eqn:E; simpl; rewrite ?E; split; reflexivity.
Qed.

(** C10. [CreateAccount] has no error to return; after it the account
    stored under the given account's id is the given account (owner and
    balance replaced if the id was there) and the history under that id is
    empty, whatever had been recorded; the other ids keep their account
    and their history. *)
Theorem CreateAccount_overwrites (d : inMemoryDatabase) (account : Account.t) :
  let d' := snd (CreateAccount account d) in
  fst (CreateAccount account d) = tt
  /\ GetAccountByID (Account.ID account) d' = (inl account, d')
  /\ GetTransactionsByAccountID (Account.ID account) d' = (inl [], d')
  /\ (forall id, id <> Account.ID account ->
        accounts d' !! id = accounts d !! id /\
        transactions d' !! id = transactions d !! id).
Proof.
  simpl. unfold GetAccountByID, GetTransactionsByAccountID. simpl.
  rewrite !lookup_insert_eq. split; [done |]. split; [done |]. split; [done |].
  intros id Hne. by rewrite !lookup_insert_ne.
Qed.

End SingleCalls.

(** * [Transfer] *)

Section TransferFacts.
Import errors memory.

(** [Transfer], call by call, over any adapter. *)
Lemma Transfer_steps {D : Type} `{db.DatabaseAdapter D}
    (e : service.env) (d : D) (from to : string) (amount : float) :
  service.Transfer from to amount (e, d) =
    let w := service.new_transaction e from enum.Withdrawal amount in
    let dp := service.new_transaction (service.tick e) to enum.Deposit amount in
    match db.CreateTransaction w d with
    | (Some err, d1) => (Some err, (service.tick e, d1))
    | (None, d1) =>
        let '(r, d2) := db.CreateTransaction dp d1 in
        (r, (service.tick (service.tick e), d2))
    end.
Proof.
  unfold service.Transfer, mbind, M_bind, bind, mret, M_ret, ret,
    service.in_env, service.in_db, service.uuid_New, service.time_Now,
    service.new_transaction, service.tick, service.wrapError.
  simpl.
  destruct (db.CreateTransaction _ d) as [[err|] d1]; simpl; [reflexivity |].
  destruct (db.CreateTransaction _ d1) as [[err|] d2]; reflexivity.
Qed.

(** What the recording adapter does with one call. *)
Lemma recorder_CreateTransaction (tx : Transaction.t)
    (seen : list Transaction.t) (d : inMemoryDatabase) :
  db.CreateTransaction tx (db.Recorder seen d) =
    (fst (CreateTransaction tx d),
     db.Recorder (seen ++ [tx]) (snd (CreateTransaction tx d))).
Proof.
  simpl. unfold db.forward. simpl.
  by destruct (CreateTransaction tx d).
Qed.

End TransferFacts.

Section TransferClaims.
Import errors memory.

(** C4. [Transfer] calls the store's [CreateTransaction] first with a
    withdrawal of the amount on [from] and then, once that call has
    succeeded, with a deposit of the amount on [to]; each record takes the
    next identifier and the next reading of the clock; no other
    transaction is submitted.  If the withdrawal fails, its error is
    returned, the deposit is never submitted and the store (every balance,
    every history) is as before.  If [Transfer] returns no error and the
    two accounts differ, the balance of [from] is the old one minus the
    amount, the balance of [to] the old one plus the amount, and each
    history gains the one record of its account at its end. *)
Theorem Transfer_two_calls
    (e e' : service.env) (d : inMemoryDatabase) (from to : string)
    (amount : float) (r : option APIError)
    (rk : db.recorder inMemoryDatabase) :
  service.Transfer from to amount (e, db.Recorder [] d) = (r, (e', rk)) ->
  let w := service.new_transaction e from enum.Withdrawal amount in
  let dp := service.new_transaction (service.tick e) to enum.Deposit amount in
  let d' := db.inner rk in
  (forall err,
      fst (CreateTransaction w d) = Some err ->
      r = Some err /\ db.calls rk = [w] /\ d' = d)
  /\ (fst (CreateTransaction w d) = None ->
      db.calls rk = [w; dp] /\
      (r, d') = CreateTransaction dp (snd (CreateTransaction w d)))
  /\ (r = None -> from <> to ->
      exists accF accT,
        accounts d !! from = Some accF /\
        accounts d !! to = Some accT /\
        accounts d' =
          <[to := Account.with_Balance accT
                    (PrimFloat.add (Account.Balance accT) amount)]>
            (<[from := Account.with_Balance accF
                         (PrimFloat.sub (Account.Balance accF) amount)]>
               (accounts d)) /\
        transactions d' =
          <[to := default [] (transactions d !! to) ++ [dp]]>
            (<[from := default [] (transactions d !! from) ++ [w]]>
               (transactions d))).
Proof.
  intros Hrun w dp d'. subst d'.
  rewrite Transfer_steps in Hrun. cbv zeta in Hrun. fold w dp in Hrun.
  rewrite recorder_CreateTransaction in Hrun.
  destruct (CreateTransaction w d) as [[errw|] d1] eqn:Hw;
    cbn [fst snd app] in Hrun |- *.
  - (* the withdrawal failed *)
    injection Hrun as <- <- <-. simpl.
    apply CreateTransaction_error in Hw as [-> _].
    split; [| split].
    + by intros err [= <-].
    + discriminate.
    + discriminate.
  - (* the withdrawal committed *)
    rewrite recorder_CreateTransaction in Hrun.
    injection Hrun as <- <- <-. simpl.
    split; [| split].
    + discriminate.
    + intros _. split; [reflexivity |].
      by destruct (CreateTransaction dp d1).
    + intros Hnone Hne.
      destruct (CreateTransaction dp d1) as [rd d2] eqn:Hd.
      simpl in Hnone. subst rd. simpl.
      apply CreateTransaction_commit in Hw as (accF & HF & -> & HtyF).
      apply CreateTransaction_commit in Hd as (accT & HT & -> & HtyT).
      simpl in HF, HT.
      rewrite lookup_insert_ne in HT by done.
      exists accF, accT. split; [done |]. split; [done |].
      split.
      * rewrite !store_transaction_accounts. simpl.
        unfold history.apply_to_balance. simpl. reflexivity.
      * rewrite !store_transaction_transactions. simpl.
        by rewrite lookup_insert_ne by done.
Qed.

(** C9. When the withdrawal commits and the destination id is not in the
    store, [Transfer] returns [ErrAccountNotFound]; the store it leaves
    has the source's balance lowered by the amount and the withdrawal at
    the end of the source's history, and nothing else differs: no account
    is credited and the withdrawal is not undone. *)
Theorem Transfer_missing_destination
    (e : service.env) (d : inMemoryDatabase) (from to : string)
    (amount : float) (acc : Account.t) :
  accounts d !! from = Some acc ->
  PrimFloat.ltb (Account.Balance acc) amount = false ->
  accounts d !! to = None ->
  let w := service.new_transaction e from enum.Withdrawal amount in
  exists d',
    service.Transfer from to amount (e, d)
      = (Some ErrAccountNotFound, (service.tick (service.tick e), d')) /\
    accounts d' =
      <[from := Account.with_Balance acc
                  (PrimFloat.sub (Account.Balance acc) amount)]>
        (accounts d) /\
    transactions d' =
      <[from := default [] (transactions d !! from) ++ [w]]>
        (transactions d).
Proof.
  intros Hacc Hlt Hto w.
  assert (Hne : from <> to) by congruence.
  rewrite Transfer_steps. cbv zeta. fold w. simpl.
  rewrite (CreateTransaction_withdrawal w d acc Hacc eq_refl). simpl.
  rewrite Hlt.
  rewrite CreateTransaction_missing.
  - eexists. split; [reflexivity |]. split; reflexivity.
  - rewrite store_transaction_accounts. simpl.
    by rewrite lookup_insert_ne.
Qed.

End TransferClaims.

Section TransferScenarios.
Import errors memory.

(** Scenario 3 of the specification: 50 from Alice (100) to Bob (0). *)
Lemma Transfer_two_calls_witness :
  exists rk,
    service.Transfer "A" "B" 50%float (sample.world, db.Recorder [] sample.bank)
      = (None, (service.tick (service.tick sample.world), rk)) /\
    db.calls rk =
      [Transaction.mk "x" "A" enum.Withdrawal 50%float 0%Z;
       Transaction.mk "xx" "B" enum.Deposit 50%float 1%Z] /\
    accounts (db.inner rk) !! "A" = Some (Account.mk "A" "Alice" 50%float) /\
    accounts (db.inner rk) !! "B" = Some (Account.mk "B" "Bob" 50%float) /\
    transactions (db.inner rk) !! "A" =
      Some [Transaction.mk "x" "A" enum.Withdrawal 50%float 0%Z] /\
    transactions (db.inner rk) !! "B" =
      Some [Transaction.mk "xx" "B" enum.Deposit 50%float 1%Z].
Proof.
  pose (X := service.Transfer "A" "B" 50%float
               (sample.world, db.Recorder [] sample.bank)).
  assert (Hrun : X = (None, (service.tick (service.tick sample.world),
                             snd (snd X)))) by (vm_compute; reflexivity).
  destruct (Transfer_two_calls _ _ _ _ _ _ _ _ Hrun) as (_ & Hok & Hmoved).
  destruct Hok as [Hcalls _]; [vm_compute; reflexivity |].
  destruct Hmoved as (accF & accT & HF & HT & Haccs & Htxs);
    [reflexivity | discriminate |].
  vm_compute in HF, HT.
  injection HF as <-. injection HT as <-.
  exists (snd (snd X)). split; [exact Hrun |]. split; [exact Hcalls |].
  rewrite Haccs, Htxs. repeat split; vm_compute; reflexivity.
Defined.

(** 50 from Alice (100) to an id that is not in the store. *)
Lemma Transfer_missing_destination_witness :
  exists d',
    service.Transfer "A" "Z" 50%float (sample.world, sample.bank)
      = (Some ErrAccountNotFound, (service.tick (service.tick sample.world), d')) /\
    accounts d' = <["A" := Account.mk "A" "Alice" 50%float]>
                    (accounts sample.bank) /\
    transactions d' =
      <["A" := [Transaction.mk "x" "A" enum.Withdrawal 50%float 0%Z]]>
        (transactions sample.bank).
Proof.
  destruct (Transfer_missing_destination
              sample.world sample.bank "A" "Z" 50%float sample.alice)
    as (d' & Hrun & Haccs & Htxs).
  - vm_compute; reflexivity.
  - vm_compute; reflexivity.
  - vm_compute; reflexivity.
  - exists d'. split; [exact Hrun |]. split.
    + rewrite Haccs. reflexivity.
    + rewrite Htxs. reflexivity.
Defined.

End TransferScenarios.

(** * Signs of binary64 sums and differences

    [Prim2SF] reads a primitive float as a [spec_float]; the operations are
    specified on that form.  The lemmas below follow the rounding function
    far enough to bound the sign of its result. *)

Section Binary64Facts.
Local Open Scope Z_scope.

Lemma shr_1_nonneg mrs : 0 <= shr_m mrs -> 0 <= shr_m (shr_1 mrs).
Proof. destruct mrs as [[|[p|p|]|p] r s]; simpl; lia. Qed.

Lemma iter_shr_1_nonneg p :
  forall mrs, 0 <= shr_m mrs -> 0 <= shr_m (SpecFloat.iter_pos shr_1 p mrs).
Proof.
  induction p as [p IH|p IH|]; intros mrs Hm; simpl.
  - apply IH, IH, shr_1_nonneg, Hm.
  - apply IH, IH, Hm.
  - apply shr_1_nonneg, Hm.
Qed.

Lemma shr_nonneg mrs e n : 0 <= shr_m mrs -> 0 <= shr_m (fst (shr mrs e n)).
Proof.
  intros Hm. destruct n; simpl; auto using iter_shr_1_nonneg.
Qed.

Lemma shr_fexp_nonneg m e l :
  0 <= m -> 0 <= shr_m (fst (shr_fexp prec emax m e l)).
Proof.
  intros Hm. unfold shr_fexp. apply shr_nonneg.
  destruct l as [|[| |]]; exact Hm.
Qed.

Lemma round_nearest_even_nonneg m l : 0 <= m -> 0 <= round_nearest_even m l.
Proof.
  intros Hm. destruct l as [|[| |]]; simpl; try lia.
  destruct (Z.even m); lia.
Qed.

Lemma binary_round_aux_signed s m e l :
  0 <= m -> binary64.is_signed s (binary_round_aux prec emax s m e l).
Proof.
  intros Hm. unfold binary_round_aux.
  pose proof (shr_fexp_nonneg m e l Hm) as H1.
  destruct (shr_fexp prec emax m e l) as [mrs' e'].
  simpl in H1.
  pose proof (shr_fexp_nonneg _ e' loc_Exact
                (round_nearest_even_nonneg _ (loc_of_shr_record mrs') H1)) as H2.
  destruct (shr_fexp prec emax _ e' loc_Exact) as [mrs'' e''].
  simpl in H2.
  destruct (shr_m mrs'') as [|p|p]; simpl; [reflexivity | | lia].
  destruct (Z.leb e'' _); reflexivity.
Qed.

Lemma binary_round_signed s m e : binary64.is_signed s (binary_round prec emax s m e).
Proof.
  unfold binary_round.
  destruct (shl_align m e _) as [mz ez].
  apply binary_round_aux_signed. lia.
Qed.

Lemma binary_normalize_not_negative m e :
  0 <= m -> binary64.not_negative (binary_normalize prec emax m e false).
Proof.
  intros Hm. destruct m as [|p|p]; simpl; [exact I | | lia].
  pose proof (binary_round_signed false p e) as H.
  destruct (binary_round prec emax false p e); simpl in *; auto.
Qed.

Lemma iter_xO_value d : forall m, Zpos (Pos.iter xO m d) = Zpos m * 2 ^ Zpos d.
Proof.
  induction d as [|d IH] using Pos.peano_ind; intros m.
  - cbn [Pos.iter]. rewrite (Pos2Z.inj_xO m). change (2 ^ 1) with 2. lia.
  - rewrite Pos.iter_succ, (Pos2Z.inj_xO (Pos.iter xO m d)), IH.
    rewrite Pos2Z.inj_succ, Z.pow_succ_r by lia. lia.
Qed.

Lemma shl_align_value m e e' :
  e' <= e -> Zpos (fst (shl_align m e e')) = Zpos m * 2 ^ (e - e').
Proof.
  intros Hle. unfold shl_align.
  destruct (e' - e) as [|d|d] eqn:Hd; simpl.
  - replace (e - e') with 0 by lia. simpl. lia.
  - lia.
  - rewrite iter_xO_value. replace (e - e') with (Zpos d) by lia. reflexivity.
Qed.

Lemma digits2_pos_bounds m :
  2 ^ (Zpos (digits2_pos m) - 1) <= Zpos m < 2 ^ Zpos (digits2_pos m).
Proof.
  induction m as [m IH|m IH|]; simpl digits2_pos.
  - rewrite Pos2Z.inj_succ, (Pos2Z.inj_xI m).
    replace (Z.succ (Zpos (digits2_pos m)) - 1)
      with (Z.succ (Zpos (digits2_pos m) - 1)) by lia.
    rewrite !Z.pow_succ_r by lia. lia.
  - rewrite Pos2Z.inj_succ, (Pos2Z.inj_xO m).
    replace (Z.succ (Zpos (digits2_pos m)) - 1)
      with (Z.succ (Zpos (digits2_pos m) - 1)) by lia.
    rewrite !Z.pow_succ_r by lia. lia.
  - simpl. lia.
Qed.

Lemma canonical_exponent m e :
  canonical_mantissa prec emax m e = true ->
  emin <= e /\ Zpos (digits2_pos m) <= prec /\
  (emin < e -> Zpos (digits2_pos m) = prec).
Proof.
  unfold canonical_mantissa, fexp. intros H. apply Z.eqb_eq in H.
  unfold SpecFloat.emin in *. lia.
Qed.

Lemma aligned_difference_nonneg mx ex my ey :
  canonical_mantissa prec emax mx ex = true ->
  canonical_mantissa prec emax my ey = true ->
  SFltb (S754_finite false mx ex) (S754_finite false my ey) = false ->
  0 <= Zpos (fst (shl_align mx ex (Z.min ex ey)))
       - Zpos (fst (shl_align my ey (Z.min ex ey))).
Proof.
  intros Hcx Hcy Hlt.
  apply canonical_exponent in Hcx as (Hex & Hdx & Hnx).
  apply canonical_exponent in Hcy as (Hey & Hdy & Hny).
  unfold SFltb, SFcompare in Hlt.
  rewrite !shl_align_value by lia.
  destruct (Z.compare_spec ex ey) as [Heq|Hl|Hg]; [| discriminate |].
  - subst ey. rewrite Z.min_id, Z.sub_diag. simpl Z.pow.
    fold (Pos.compare mx my) in Hlt.
    destruct (Pos.compare_spec mx my) as [->|Hm|Hm]; [lia | discriminate | lia].
  - rewrite Z.min_r by lia. rewrite Z.sub_diag. simpl (2 ^ 0).
    pose proof (digits2_pos_bounds mx) as [Hlo _].
    pose proof (digits2_pos_bounds my) as [_ Hhi].
    rewrite Hnx in Hlo by lia.
    assert (Hpy : 2 ^ Zpos (digits2_pos my) <= 2 ^ prec)
      by (apply Z.pow_le_mono_r; lia).
    assert (Hsh : 2 ^ 1 <= 2 ^ (ex - ey))
      by (apply Z.pow_le_mono_r; lia).
    assert (Hprec : 2 ^ prec = 2 ^ (prec - 1) * 2 ^ 1)
      by (rewrite <- Z.pow_add_r by (unfold prec; lia); f_equal; lia).
    assert (0 < 2 ^ (prec - 1)) by (apply Z.pow_pos_nonneg; unfold prec; lia).
    nia.
Qed.

Lemma Prim2SF_zero : Prim2SF 0%float = S754_zero false.
Proof. reflexivity. Qed.

Lemma Prim2SF_infinity : Prim2SF infinity = S754_infinity false.
Proof. reflexivity. Qed.

Lemma leb_zero_not_negative (x : float) :
  PrimFloat.leb 0%float x = true <-> binary64.not_negative (Prim2SF x).
Proof.
  rewrite FloatAxioms.leb_spec, Prim2SF_zero. unfold SFleb, SFcompare.
  destruct (Prim2SF x) as [s|[|]| |[|] m e]; simpl; intuition discriminate.
Qed.

Lemma positive_finite_shape (a : float) :
  PrimFloat.is_finite a = true ->
  PrimFloat.ltb 0%float a = true ->
  exists m e, Prim2SF a = S754_finite false m e.
Proof.
  unfold is_finite, is_nan, is_infinity.
  rewrite FloatAxioms.ltb_spec, !FloatAxioms.eqb_spec, FloatAxioms.abs_spec, Prim2SF_zero, Prim2SF_infinity.
  unfold SFltb, SFeqb, SFcompare.
  destruct (Prim2SF a) as [s|[|]| |[|] m e]; simpl; try discriminate.
  intros _ _. eauto.
Qed.

Lemma Prim2SF_canonical (x : float) s m e :
  Prim2SF x = S754_finite s m e -> canonical_mantissa prec emax m e = true.
Proof.
  intros Hx. pose proof (Prim2SF_valid x) as Hv. rewrite Hx in Hv.
  simpl in Hv. unfold bounded in Hv. apply andb_true_iff in Hv. tauto.
Qed.

Lemma add_not_negative (b a : float) :
  PrimFloat.leb 0%float b = true ->
  PrimFloat.is_finite a = true ->
  PrimFloat.ltb 0%float a = true ->
  PrimFloat.leb 0%float (PrimFloat.add b a) = true.
Proof.
  intros Hb Hfin Hpos.
  apply leb_zero_not_negative in Hb. apply leb_zero_not_negative.
  destruct (positive_finite_shape a Hfin Hpos) as (my & ey & Hy).
  rewrite FloatAxioms.add_spec, Hy. unfold SF64add.
  destruct (Prim2SF b) as [s|s| |s mx ex]; simpl in Hb |- *; try done.
  subst s. unfold SFadd.
  apply binary_normalize_not_negative. simpl. lia.
Qed.

Lemma sub_not_negative (b a : float) :
  PrimFloat.leb 0%float b = true ->
  PrimFloat.is_finite a = true ->
  PrimFloat.ltb 0%float a = true ->
  PrimFloat.ltb b a = false ->
  PrimFloat.leb 0%float (PrimFloat.sub b a) = true.
Proof.
  intros Hb Hfin Hpos Hge.
  apply leb_zero_not_negative in Hb. apply leb_zero_not_negative.
  destruct (positive_finite_shape a Hfin Hpos) as (my & ey & Hy).
  rewrite FloatAxioms.ltb_spec, Hy in Hge.
  rewrite FloatAxioms.sub_spec, Hy. unfold SF64sub.
  destruct (Prim2SF b) as [s|s| |s mx ex] eqn:Hx; simpl in Hb |- *;
    try done.
  subst s. unfold SFsub.
  apply binary_normalize_not_negative. simpl cond_Zopp.
  apply aligned_difference_nonneg; eauto using Prim2SF_canonical.
Qed.

End Binary64Facts.

(** * Sequences of calls *)

Section SequenceFacts.
Import errors memory history.

Implicit Types (d : inMemoryDatabase) (tx : Transaction.t) (acc : Account.t).

Lemma run_transactions_cons tx (rest : list Transaction.t) d :
  run_transactions (tx :: rest) d =
    let '(r, d1) := CreateTransaction tx d in
    let '(log, d') := run_transactions rest d1 in
    ((tx, r) :: log, d').
Proof. reflexivity. Qed.

Lemma run_cons (c : call) (rest : list call) d :
  run (c :: rest) d =
    let '(r, d1) := do_call c d in
    let '(log, d') := run rest d1 in
    ((c, r) :: log, d').
Proof. reflexivity. Qed.

Lemma with_Balance_same acc : Account.with_Balance acc (Account.Balance acc) = acc.
Proof. by destruct acc. Qed.

(** One call seen from a fixed account [id]: either the call is not a
    committed transaction of [id] and the account is as before, or it is one
    and the account's balance went through [apply_to_balance]. *)
Lemma CreateTransaction_on_account tx d (id : string) acc r d1 :
  accounts d !! id = Some acc ->
  CreateTransaction tx d = (r, d1) ->
  committed_for id (tx, r) = false /\ accounts d1 !! id = Some acc
  \/ committed_for id (tx, r) = true /\
     accounts d1 !! id =
       Some (Account.with_Balance acc (apply_to_balance (Account.Balance acc) tx)) /\
     (Transaction.Type_ tx = enum.Deposit
      \/ Transaction.Type_ tx = enum.Withdrawal /\
         PrimFloat.ltb (Account.Balance acc) (Transaction.Amount tx) = false).
Proof.
  intros Hacc Hrun. destruct r as [err|].
  - apply CreateTransaction_error in Hrun as [-> _]. by left.
  - apply CreateTransaction_commit in Hrun as (acc0 & Hacc0 & -> & Hty).
    unfold committed_for. simpl.
    rewrite lookup_insert.
    destruct (String.eqb_spec (Transaction.AccountID tx) id) as [Heq|Hne].
    + subst id. rewrite decide_True by done.
      assert (acc0 = acc) as -> by congruence.
      right. auto.
    + rewrite decide_False by done. left. auto.
Qed.

(** What one call of a log does to the history kept under [id]. *)
Lemma do_call_history (c : call) d (id : string) :
  default [] (transactions (snd (do_call c d)) !! id) =
    history_step id (default [] (transactions d !! id)) (c, fst (do_call c d)).
Proof.
  destruct c as [a|tx]; simpl.
  - rewrite lookup_insert.
    destruct (String.eqb_spec (Account.ID a) id) as [Heq|Hne].
    + by rewrite decide_True.
    + by rewrite decide_False.
  - destruct (CreateTransaction tx d) as [[err|] d1] eqn:Hrun; simpl.
    + by apply CreateTransaction_error in Hrun as [-> _].
    + apply CreateTransaction_commit in Hrun as (acc0 & _ & -> & _). simpl.
      rewrite lookup_insert.
      destruct (String.eqb_spec (Transaction.AccountID tx) id) as [Heq|Hne].
      * subst id. by rewrite decide_True.
      * by rewrite decide_False.
Qed.

Lemma do_call_same_keys (c : call) d :
  same_keys d -> same_keys (snd (do_call c d)).
Proof.
  intros Hkeys id. destruct c as [a|tx]; simpl.
  - rewrite !lookup_insert. case_decide; [done | apply Hkeys].
  - destruct (CreateTransaction tx d) as [[err|] d1] eqn:Hrun; simpl.
    + apply CreateTransaction_error in Hrun as [-> _]. apply Hkeys.
    + apply CreateTransaction_commit in Hrun as (acc0 & _ & -> & _). simpl.
      rewrite !lookup_insert. case_decide; [done | apply Hkeys].
Qed.

Lemma run_history (cs : list call) :
  forall d (id : string),
    default [] (transactions (snd (run cs d)) !! id) =
      fold_left (history_step id) (fst (run cs d))
                (default [] (transactions d !! id)).
Proof.
  induction cs as [|c rest IH]; intros d id; [reflexivity |].
  rewrite run_cons.
  pose proof (do_call_history c d id) as Hstep.
  destruct (do_call c d) as [r d1]. simpl in Hstep.
  specialize (IH d1 id).
  destruct (run rest d1) as [log d']. simpl in IH |- *.
  by rewrite IH, Hstep.
Qed.

Lemma run_same_keys (cs : list call) :
  forall d, same_keys d -> same_keys (snd (run cs d)).
Proof.
  induction cs as [|c rest IH]; intros d Hkeys; [exact Hkeys |].
  rewrite run_cons.
  pose proof (do_call_same_keys c d Hkeys) as Hstep.
  destruct (do_call c d) as [r d1]. simpl in Hstep.
  specialize (IH d1 Hstep).
  by destruct (run rest d1) as [log d'].
Qed.

Lemma same_keys_new : same_keys NewInMemoryDatabase.
Proof. intros id. simpl. by rewrite !lookup_empty. Qed.

(** Two binary64 values that [eqb] tells apart are different values. *)
Lemma float_neq (x y : float) : PrimFloat.eqb x y = false -> PrimFloat.eqb x x = true -> x <> y.
Proof. intros Hxy Hxx ->. congruence. Qed.

End SequenceFacts.

(** * Balances and histories after sequences of calls *)

Section SequenceClaims.
Import errors memory history.

(** C2, as amended.  After any sequence of [CreateTransaction] calls, the
    account stored under [id] is the one stored before with its balance
    replaced by the result of applying to the old balance, in the order of
    the calls, the binary64 addition of each committed deposit of [id] and
    the binary64 subtraction of each committed withdrawal of [id]; calls
    that failed and calls on other accounts contribute nothing. *)
Theorem balance_follows_committed (txs : list Transaction.t) :
  forall (d : inMemoryDatabase) (id : string) (acc : Account.t),
    accounts d !! id = Some acc ->
    let '(log, d') := run_transactions txs d in
    accounts d' !! id =
      Some (Account.with_Balance acc
              (fold_left apply_to_balance (committed id log)
                         (Account.Balance acc))).
Proof.
  induction txs as [|tx rest IH]; intros d id acc Hacc.
  - simpl. by rewrite with_Balance_same.
  - rewrite run_transactions_cons.
    destruct (CreateTransaction tx d) as [r d1] eqn:Hrun.
    destruct (CreateTransaction_on_account tx d id acc r d1 Hacc Hrun)
      as [[Hskip Hacc1] | (Hkeep & Hacc1 & _)].
    + specialize (IH d1 id acc Hacc1).
      destruct (run_transactions rest d1) as [log d'].
      unfold committed in *. simpl. by rewrite Hskip.
    + specialize (IH d1 id _ Hacc1).
      destruct (run_transactions rest d1) as [log d'].
      unfold committed in *. simpl. rewrite Hkeep. simpl.
      exact IH.
Qed.

Lemma balance_follows_committed_witness :
  let '(log, d') := run_transactions sample.busy_day sample.bank in
  accounts d' !! "A" = Some (Account.mk "A" "Alice" 100%float)
  /\ length (committed "A" log) = 4%nat.
Proof.
  pose proof (balance_follows_committed sample.busy_day
                sample.bank "A" sample.alice) as H.
  destruct (run_transactions sample.busy_day sample.bank) as [log d'] eqn:Hrun.
  rewrite H by (vm_compute; reflexivity).
  assert (Hlog : log = fst (run_transactions sample.busy_day sample.bank))
    by (by rewrite Hrun).
  rewrite Hlog. split; vm_compute; reflexivity.
Defined.

(** C2 as the specification words it fails at 2^53: two committed deposits
    of 1 leave the balance at 2^53, while the formula gives 2^53 + 2. *)
Lemma expected_balance_counterexample :
  let '(log, d') := run_transactions sample.two_deposits sample.vault in
  committed "D" log = sample.two_deposits
  /\ Account.Balance <$> accounts d' !! "D" = Some 9007199254740992%float
  /\ spec.expected_balance (Account.Balance sample.dana) (committed "D" log)
       = 9007199254740994%float
  /\ Account.Balance <$> accounts d' !! "D"
       <> Some (spec.expected_balance (Account.Balance sample.dana)
                                      (committed "D" log)).
Proof.
  vm_compute. repeat split.
  intros H. assert (H' := f_equal (default 0%float) H). simpl in H'.
  revert H'. apply float_neq; reflexivity.
Qed.

(** The same with everyday amounts: 0.1, then +0.2 and +0.3, leaves
    0.6000000000000001, while 0.1 + (0.2 + 0.3) is 0.6. *)
Example tenths_do_not_add_up :
  let '(log, d') := run_transactions sample.tenths sample.purse in
  Account.Balance <$> accounts d' !! "F" = Some 0x1.3333333333334p-1%float
  /\ spec.expected_balance (Account.Balance sample.fred) (committed "F" log)
       = 0x1.3333333333333p-1%float.
Proof. vm_compute. split; reflexivity. Qed.




(** C5.  After any sequence of [CreateAccount] and [CreateTransaction]
    calls on a new store, [GetTransactionsByAccountID id] fails with
    [ErrAccountNotFound] when no account is stored under [id], and
    otherwise returns the transactions of [id] that committed since the
    account was created, in the order they committed; and right after
    [CreateAccount] the account's history is the empty sequence, not an
    error. *)
Theorem GetTransactionsByAccountID_in_commit_order
    (cs : list call) (id : string) :
  (let '(log, d) := run cs NewInMemoryDatabase in
   GetTransactionsByAccountID id d =
     (match accounts d !! id with
      | None => inr ErrAccountNotFound
      | Some _ => inl (committed_since_created id log)
      end, d))
  /\ (forall (account : Account.t) (d : inMemoryDatabase),
        fst (GetTransactionsByAccountID (Account.ID account)
               (snd (CreateAccount account d))) = inl []).
Proof.
  split.
  - pose proof (run_history cs NewInMemoryDatabase id) as Hhist.
    pose proof (run_same_keys cs NewInMemoryDatabase same_keys_new id) as Hkeys.
    destruct (run cs NewInMemoryDatabase) as [log d]. simpl in Hhist, Hkeys.
    rewrite lookup_empty in Hhist. simpl in Hhist.
    unfold GetTransactionsByAccountID, committed_since_created.
    destruct (accounts d !! id) as [acc|], (transactions d !! id) as [txs|].
    + simpl in Hhist. by rewrite Hhist.
    + destruct Hkeys as [_ Hk]. discriminate (Hk eq_refl).
    + destruct Hkeys as [Hk _]. discriminate (Hk eq_refl).
    + reflexivity.
  - intros account d. unfold GetTransactionsByAccountID. simpl.
    by rewrite lookup_insert_eq.
Qed.

End SequenceClaims.

(** * Further properties of the store *)

Section StoreInvariantFacts.
Import errors memory history ledger.

Implicit Types (d : inMemoryDatabase) (tx : Transaction.t) (acc : Account.t).

(** What [CreateTransaction] does to the entry of any key [k] of the
    accounts map: nothing, or a new balance under the transaction's own
    key. *)
Lemma CreateTransaction_accounts tx d (k : string) :
  accounts (snd (CreateTransaction tx d)) !! k = accounts d !! k
  \/ k = Transaction.AccountID tx /\
     exists acc b,
       accounts d !! k = Some acc /\
       accounts (snd (CreateTransaction tx d)) !! k
         = Some (Account.with_Balance acc b).
Proof.
  destruct (CreateTransaction tx d) as [[err|] d1] eqn:Hrun; simpl.
  - apply CreateTransaction_error in Hrun as [-> _]. by left.
  - apply CreateTransaction_commit in Hrun as (acc & Hacc & -> & _).
    rewrite store_transaction_accounts.
    destruct (decide (Transaction.AccountID tx = k)) as [<-|Hne].
    + right. split; [done |]. exists acc. eexists.
      split; [done |]. by rewrite lookup_insert_eq.
    + left. by rewrite lookup_insert_ne.
Qed.

(** What [CreateTransaction] does to the history kept under any key. *)
Lemma CreateTransaction_history tx d (id : string) :
  default [] (transactions (snd (CreateTransaction tx d)) !! id) =
    default [] (transactions d !! id)
      ++ committed id [(tx, fst (CreateTransaction tx d))].
Proof.
  unfold committed, committed_for.
  destruct (CreateTransaction tx d) as [[err|] d1] eqn:Hrun; simpl.
  - apply CreateTransaction_error in Hrun as [-> _]. by rewrite app_nil_r.
  - apply CreateTransaction_commit in Hrun as (acc & _ & -> & _).
    rewrite store_transaction_transactions, lookup_insert.
    destruct (String.eqb_spec (Transaction.AccountID tx) id) as [Heq|Hne].
    + subst id. by rewrite decide_True.
    + rewrite decide_False by done. by rewrite app_nil_r.
Qed.

Lemma do_call_filed_by_id (c : call) d :
  filed_by_id d -> filed_by_id (snd (do_call c d)).
Proof.
  intros Hfiled k acc'. destruct c as [a|tx]; simpl.
  - rewrite lookup_insert. case_decide; [| apply Hfiled].
    intros [= <-]. done.
  - destruct (CreateTransaction_accounts tx d k)
      as [-> | (_ & acc & b & Hacc & ->)]; [apply Hfiled |].
    intros [= <-]. simpl. by apply Hfiled.
Qed.

Lemma do_call_histories_filed (c : call) d :
  histories_filed d -> histories_filed (snd (do_call c d)).
Proof.
  intros Hfiled k txs. destruct c as [a|tx]; simpl.
  - rewrite lookup_insert. case_decide; [| apply Hfiled].
    intros [= <-]. constructor.
  - destruct (CreateTransaction tx d) as [[err|] d1] eqn:Hrun; simpl.
    + apply CreateTransaction_error in Hrun as [-> _]. apply Hfiled.
    + apply CreateTransaction_commit in Hrun as (acc & _ & -> & _).
      rewrite store_transaction_transactions, lookup_insert.
      case_decide as Hk; [| apply Hfiled].
      intros [= <-]. apply Forall_app. split.
      * destruct (transactions d !! Transaction.AccountID tx) as [old|] eqn:Hold;
          simpl; [| constructor].
        rewrite <- Hk. by apply Hfiled.
      * by repeat constructor.
Qed.

Lemma run_filed (cs : list call) :
  forall d,
    filed_by_id d -> histories_filed d ->
    filed_by_id (snd (run cs d)) /\ histories_filed (snd (run cs d)).
Proof.
  induction cs as [|c rest IH]; intros d Ha Ht; [done |].
  rewrite run_cons.
  pose proof (do_call_filed_by_id c d Ha) as Ha1.
  pose proof (do_call_histories_filed c d Ht) as Ht1.
  destruct (do_call c d) as [r d1]. simpl in Ha1, Ht1.
  specialize (IH d1 Ha1 Ht1).
  by destruct (run rest d1) as [log d'].
Qed.

Lemma new_store_filed :
  filed_by_id NewInMemoryDatabase /\ histories_filed NewInMemoryDatabase.
Proof.
  split; intros k x; simpl; by rewrite lookup_empty.
Qed.

Lemma run_transactions_history (txs : list Transaction.t) :
  forall d (id : string),
    default [] (transactions (snd (run_transactions txs d)) !! id) =
      default [] (transactions d !! id)
        ++ committed id (fst (run_transactions txs d)).
Proof.
  induction txs as [|tx rest IH]; intros d id.
  - simpl. by rewrite app_nil_r.
  - rewrite run_transactions_cons.
    pose proof (CreateTransaction_history tx d id) as Hstep.
    destruct (CreateTransaction tx d) as [r d1]. simpl in Hstep.
    specialize (IH d1 id).
    destruct (run_transactions rest d1) as [log d']. simpl in IH |- *.
    rewrite IH, Hstep. unfold committed. simpl.
    destruct (committed_for id (tx, r)); simpl; by rewrite <- ?app_assoc.
Qed.

End StoreInvariantFacts.

Section Binary64Differences.
Local Open Scope Z_scope.

(** A finite binary64 value minus itself is plus zero. *)
Lemma sub_diag_finite (b : float) :
  PrimFloat.is_finite b = true -> PrimFloat.sub b b = 0%float.
Proof.
  intros Hfin. apply Prim2SF_inj.
  rewrite FloatAxioms.sub_spec, Prim2SF_zero.
  revert Hfin. unfold is_finite, is_nan, is_infinity.
  rewrite !FloatAxioms.eqb_spec, FloatAxioms.abs_spec, Prim2SF_infinity.
  unfold SF64sub, SFsub, SFeqb, SFcompare.
  destruct (Prim2SF b) as [[|]|[|]| |s m e]; simpl; try done.
  intros _. by rewrite Z.sub_diag.
Qed.

(** No binary64 value is below itself. *)
Lemma ltb_irrefl (b : float) : PrimFloat.ltb b b = false.
Proof.
  rewrite FloatAxioms.ltb_spec. unfold SFltb, SFcompare.
  destruct (Prim2SF b) as [[|]|[|]| |[|] m e]; simpl; try done.
  - rewrite Z.compare_refl.
    fold (Pos.compare m m). by rewrite Pos.compare_refl.
  - rewrite Z.compare_refl.
    fold (Pos.compare m m). by rewrite Pos.compare_refl.
Qed.

End Binary64Differences.

Section StoreExtras.
Import errors memory history ledger.

(** X1. [GetAllAccounts] leaves the store as it was and returns the stored
    accounts and nothing else: an account is in the result exactly when
    it is stored under some id, and the result has one entry per id. *)
Theorem GetAllAccounts_lists_the_store (d : inMemoryDatabase) :
  snd (GetAllAccounts d) = d
  /\ length (fst (GetAllAccounts d)) = size (accounts d)
  /\ (forall acc,
        acc ∈ fst (GetAllAccounts d) <-> exists id, accounts d !! id = Some acc).
Proof.
  unfold GetAllAccounts. simpl. split; [done |]. split.
  - by rewrite length_fmap, length_map_to_list.
  - intros acc. rewrite list_elem_of_fmap. split.
    + intros ([k a] & -> & Hin). exists k. by apply elem_of_map_to_list.
    + intros [k Hk]. exists (k, acc). split; [done |].
      by apply elem_of_map_to_list.
Qed.

(** X2. In every store reached from a new one by [CreateAccount] and
    [CreateTransaction] calls, the account read under an id carries that
    id, every transaction read under an id has that id as its account,
    and the account is missing exactly when its history is. *)
Theorem reads_agree_with_their_key (cs : list call) (id : string) :
  let d := snd (run cs NewInMemoryDatabase) in
  (forall acc, fst (GetAccountByID id d) = inl acc -> Account.ID acc = id)
  /\ (forall txs,
        fst (GetTransactionsByAccountID id d) = inl txs ->
        Forall (fun tx => Transaction.AccountID tx = id) txs)
  /\ (fst (GetAccountByID id d) = inr ErrAccountNotFound
      <-> fst (GetTransactionsByAccountID id d) = inr ErrAccountNotFound).
Proof.
  intros d.
  destruct (run_filed cs NewInMemoryDatabase
              (proj1 new_store_filed) (proj2 new_store_filed)) as [Ha Ht].
  pose proof (run_same_keys cs NewInMemoryDatabase same_keys_new id) as Hkeys.
  fold d in Ha, Ht, Hkeys.
  unfold GetAccountByID, GetTransactionsByAccountID.
  split; [| split].
  - intros acc. destruct (accounts d !! id) as [a|] eqn:Hacc; simpl; [| done].
    intros [= <-]. by apply Ha.
  - intros txs. destruct (transactions d !! id) as [l|] eqn:Htxs; simpl; [| done].
    intros [= <-]. by apply Ht.
  - destruct (accounts d !! id) as [a|], (transactions d !! id) as [l|];
      simpl; split; try done.
    + intros _. destruct Hkeys as [_ Hk]. discriminate (Hk eq_refl).
    + intros _. destruct Hkeys as [Hk _]. discriminate (Hk eq_refl).
Qed.

(** X3. In every store reached from a new one, [GetAllAccounts] returns
    accounts with pairwise different ids. *)
Theorem GetAllAccounts_ids_differ (cs : list call) :
  NoDup (Account.ID <$> fst (GetAllAccounts (snd (run cs NewInMemoryDatabase)))).
Proof.
  destruct (run_filed cs NewInMemoryDatabase
              (proj1 new_store_filed) (proj2 new_store_filed)) as [Ha _].
  set (d := snd (run cs NewInMemoryDatabase)) in *.
  unfold GetAllAccounts. simpl.
  assert (Hids : Account.ID <$> (snd <$> map_to_list (accounts d))
                 = fst <$> map_to_list (accounts d)).
  { rewrite <- list_fmap_compose. apply list_fmap_ext.
    intros i [k acc] Hi. simpl.
    apply Ha. apply elem_of_map_to_list.
    by apply list_elem_of_lookup_2 in Hi. }
  rewrite Hids. apply NoDup_fst_map_to_list.
Qed.

(** X4. [CreateAccount] adds one account to what [GetAllAccounts] returns
    when the id is new, and keeps the count when the id is already stored. *)
Theorem CreateAccount_counts (d : inMemoryDatabase) (account : Account.t) :
  length (fst (GetAllAccounts (snd (CreateAccount account d)))) =
    match accounts d !! Account.ID account with
    | None => S (length (fst (GetAllAccounts d)))
    | Some _ => length (fst (GetAllAccounts d))
    end.
Proof.
  unfold GetAllAccounts. simpl.
  rewrite !length_fmap, !length_map_to_list, map_size_insert.
  by destruct (accounts d !! Account.ID account).
Qed.

(** X5. [CreateTransaction], whatever it returns, neither adds nor removes
    an account, never changes an account's id or owner, and leaves every
    account other than the transaction's own as it was. *)
Theorem CreateTransaction_keeps_the_accounts
    (tx : Transaction.t) (d : inMemoryDatabase) (k : string) :
  let d' := snd (CreateTransaction tx d) in
  (accounts d' !! k = None <-> accounts d !! k = None)
  /\ (forall acc',
        accounts d' !! k = Some acc' ->
        exists acc,
          accounts d !! k = Some acc /\
          Account.ID acc' = Account.ID acc /\
          Account.Owner acc' = Account.Owner acc /\
          (k <> Transaction.AccountID tx -> acc' = acc)).
Proof.
  simpl.
  destruct (CreateTransaction_accounts tx d k)
    as [-> | (Hk & acc & b & Hacc & ->)].
  - split; [done |]. intros acc' Hacc'. exists acc'. auto.
  - rewrite Hacc. split; [done |].
    intros acc' [= <-]. exists acc. simpl. repeat split; try done.
Qed.

(** X6. After any sequence of [CreateTransaction] calls, the history kept
    under an id is the history kept before followed by the committed
    transactions of that id, in the order of the calls: nothing recorded is
    dropped, changed or moved. *)
Theorem histories_only_grow
    (txs : list Transaction.t) (d : inMemoryDatabase) (id : string) :
  let '(log, d') := run_transactions txs d in
  default [] (transactions d' !! id) =
    default [] (transactions d !! id) ++ committed id log.
Proof.
  pose proof (run_transactions_history txs d id) as H.
  by destruct (run_transactions txs d) as [log d'].
Qed.

(** X7. A withdrawal on a stored account commits exactly when the balance
    is not below the amount (so also when the comparison is false because
    the amount is a NaN); it then leaves the balance minus the amount and
    the transaction at the end of the history. *)
Theorem withdrawal_commits_iff
    (tx : Transaction.t) (d : inMemoryDatabase) (acc : Account.t) :
  accounts d !! Transaction.AccountID tx = Some acc ->
  Transaction.Type_ tx = enum.Withdrawal ->
  (fst (CreateTransaction tx d) = None
   <-> PrimFloat.ltb (Account.Balance acc) (Transaction.Amount tx) = false)
  /\ (fst (CreateTransaction tx d) = None ->
      let d' := snd (CreateTransaction tx d) in
      accounts d' !! Transaction.AccountID tx =
        Some (Account.with_Balance acc
                (PrimFloat.sub (Account.Balance acc) (Transaction.Amount tx)))
      /\ transactions d' !! Transaction.AccountID tx =
           Some (default [] (transactions d !! Transaction.AccountID tx) ++ [tx])).
Proof.
  intros Hacc Hty.
  rewrite (CreateTransaction_withdrawal tx d acc Hacc Hty).
  destruct (PrimFloat.ltb _ _); simpl.
  - split; [split; discriminate | discriminate].
  - split; [done |]. intros _. by rewrite !lookup_insert_eq.
Qed.

(** X8. Withdrawing exactly the balance of an account whose balance is
    finite commits and leaves a balance of zero. *)
Theorem withdrawing_the_balance_leaves_zero
    (tx : Transaction.t) (d : inMemoryDatabase) (acc : Account.t) :
  accounts d !! Transaction.AccountID tx = Some acc ->
  Transaction.Type_ tx = enum.Withdrawal ->
  Transaction.Amount tx = Account.Balance acc ->
  PrimFloat.is_finite (Account.Balance acc) = true ->
  fst (CreateTransaction tx d) = None
  /\ accounts (snd (CreateTransaction tx d)) !! Transaction.AccountID tx
       = Some (Account.with_Balance acc 0%float).
Proof.
  intros Hacc Hty Hamount Hfin.
  rewrite (CreateTransaction_withdrawal tx d acc Hacc Hty), Hamount.
  rewrite ltb_irrefl, sub_diag_finite by done. simpl.
  split; [done |]. by rewrite lookup_insert_eq.
Qed.

End StoreExtras.

Section StoreExtraScenarios.
Import errors memory.

Lemma withdrawal_commits_iff_witness :
  fst (CreateTransaction sample.withdraw30 sample.bank) = None
  /\ accounts (snd (CreateTransaction sample.withdraw30 sample.bank)) !! "A"
       = Some (Account.mk "A" "Alice" 70%float).
Proof.
  destruct (withdrawal_commits_iff sample.withdraw30 sample.bank sample.alice)
    as [Hiff Hafter].
  - vm_compute; reflexivity.
  - reflexivity.
  - assert (Hok : fst (CreateTransaction sample.withdraw30 sample.bank) = None)
      by (apply Hiff; vm_compute; reflexivity).
    split; [exact Hok |].
    destruct (Hafter Hok) as [Hacc _]. simpl in Hacc.
    rewrite Hacc. reflexivity.
Defined.

Lemma withdrawing_the_balance_leaves_zero_witness :
  fst (CreateTransaction cases.withdraw_all sample.bank) = None
  /\ accounts (snd (CreateTransaction cases.withdraw_all sample.bank)) !! "A"
       = Some (Account.mk "A" "Alice" 0%float).
Proof.
  apply (withdrawing_the_balance_leaves_zero
           cases.withdraw_all sample.bank sample.alice).
  - vm_compute; reflexivity.
  - reflexivity.
  - reflexivity.
  - reflexivity.
Defined.

End StoreExtraScenarios.

(** * The services over the in-memory store *)

Section ServiceFacts.
Import errors memory history ledger.

Implicit Types (e : service.env) (d : inMemoryDatabase).

(** [service.CreateTransaction], call by call, over any adapter. *)
Lemma service_CreateTransaction_steps {D : Type} `{db.DatabaseAdapter D}
    e (s : D) (id : string) (req : service.CreateTransactionRequest) :
  service.CreateTransaction id req (e, s) =
    let tx := service.new_transaction e id
                (enum.TransactionTypeFromString (service.req_Type req))
                (service.req_Amount req) in
    match db.CreateTransaction tx s with
    | (Some err, s1) => (inr err, (service.tick e, s1))
    | (None, s1) => (inl tx, (service.tick e, s1))
    end.
Proof.
  unfold service.CreateTransaction, mbind, M_bind, bind, mret, M_ret, ret,
    service.in_env, service.in_db, service.uuid_New, service.time_Now,
    service.new_transaction, service.tick, service.wrapError.
  simpl.
  by destruct (db.CreateTransaction _ s) as [[err|] s1].
Qed.



(** One committed or refused transaction keeps every balance at or above
    zero when its amount is finite and above zero. *)
Lemma CreateTransaction_no_overdraft (tx : Transaction.t) d :
  no_overdraft d ->
  binary64.positive_finite (Transaction.Amount tx) ->
  no_overdraft (snd (CreateTransaction tx d)).
Proof.
  intros Hd [Hfin Hpos] k acc'.
  destruct (CreateTransaction tx d) as [[err|] d1] eqn:Hrun; simpl.
  - apply CreateTransaction_error in Hrun as [-> _]. apply Hd.
  - apply CreateTransaction_commit in Hrun as (acc & Hacc & -> & Hty).
    rewrite store_transaction_accounts, lookup_insert.
    case_decide as Hk; [| apply Hd].
    intros [= <-]. simpl. unfold apply_to_balance.
    pose proof (Hd _ _ Hacc) as Hb.
    destruct Hty as [-> | [-> Hge]]; simpl.
    + by apply add_not_negative.
    + by apply sub_not_negative.
Qed.

(** The history that a log of calls accounts for, together with the account
    as it was opened, gives the account that is stored. *)
Lemma run_replay (cs : list call) :
  forall d (id : string) (o : option Account.t) (h : list Transaction.t),
    accounts d !! id = (fun a => replay a h) <$> o ->
    accounts (snd (run cs d)) !! id =
      (fun a => replay a (fold_left (history_step id) (fst (run cs d)) h))
        <$> fold_left (opening_step id) (fst (run cs d)) o.
Proof.
  induction cs as [|c rest IH]; intros d id o h Hd; [exact Hd |].
  rewrite run_cons.
  destruct (do_call c d) as [r d1] eqn:Hcall.
  assert (Hd1 : accounts d1 !! id =
                (fun a => replay a (history_step id h (c, r)))
                  <$> opening_step id o (c, r)).
  { destruct c as [a|tx]; simpl in Hcall.
    - injection Hcall as <- <-. unfold opening_step. simpl.
      rewrite lookup_insert.
      destruct (String.eqb_spec (Account.ID a) id) as [Heq|Hne].
      + rewrite decide_True by done. simpl. unfold replay. simpl.
        by rewrite with_Balance_same.
      + by rewrite decide_False.
    - unfold opening_step. simpl. destruct r as [err|].
      + apply CreateTransaction_error in Hcall as [-> _]. exact Hd.
      + apply CreateTransaction_commit in Hcall as (acc & Hacc & -> & _).
        rewrite store_transaction_accounts, lookup_insert.
        destruct (String.eqb_spec (Transaction.AccountID tx) id) as [Heq|Hne].
        * subst id. rewrite decide_True by done.
          rewrite Hacc in Hd. destruct o as [a|]; [| discriminate].
          simpl in Hd |- *. injection Hd as ->.
          unfold replay. simpl. by rewrite fold_left_app.
        * by rewrite decide_False. }
  specialize (IH d1 id _ _ Hd1).
  by destruct (run rest d1) as [log d'].
Qed.

End ServiceFacts.

Section ServiceExtras.
Import errors memory history ledger.




(** X12. [TransactionTypeFromString] returns ["deposit"], ["withdrawal"]
    or the empty type; it gives back what [String] wrote for each of these
    three, and it returns its argument unchanged for these three strings
    only. *)
Theorem TransactionTypeFromString_round_trip (s : string) :
  let t := enum.TransactionTypeFromString s in
  (t = enum.Deposit \/ t = enum.Withdrawal \/ t = "")
  /\ enum.TransactionTypeFromString (TransactionType.String t) = t
  /\ (enum.TransactionTypeFromString s = s
      <-> s = "deposit" \/ s = "withdrawal" \/ s = "").
Proof.
  unfold enum.TransactionTypeFromString, TransactionType.String.
  destruct (String.eqb_spec s "deposit") as [->|Hd]; simpl.
  { repeat split; auto. }
  destruct (String.eqb_spec s "withdrawal") as [->|Hw]; simpl.
  { repeat split; auto. }
  repeat split; auto.
  intros [-> | [-> | ->]]; done.
Qed.

(** X13. [Transfer] returns [ErrAccountNotFound] when the source is not
    stored, [ErrInsufficientBalance] when the source's balance is below
    the amount, [ErrAccountNotFound] when the source can pay and the
    destination is not stored, and no error otherwise; it never returns
    [ErrUnknown]. *)
Theorem Transfer_result
    (e : service.env) (d : inMemoryDatabase) (from to : string)
    (amount : float) :
  fst (service.Transfer from to amount (e, d)) = transfer_result d from to amount
  /\ fst (service.Transfer from to amount (e, d)) <> Some ErrUnknown.
Proof.
  assert (Hres : fst (service.Transfer from to amount (e, d))
                 = transfer_result d from to amount).
  { rewrite Transfer_steps. cbv zeta. unfold transfer_result.
    set (w := service.new_transaction e from enum.Withdrawal amount).
    set (dp := service.new_transaction _ to enum.Deposit amount).
    simpl.
    destruct (accounts d !! from) as [source|] eqn:Hfrom.
    - rewrite (CreateTransaction_withdrawal w d source Hfrom eq_refl). simpl.
      destruct (PrimFloat.ltb _ _); simpl; [done |].
      destruct (String.eqb_spec from to) as [<-|Hne].
      + erewrite CreateTransaction_deposit; [done | | done].
        simpl. apply lookup_insert_eq.
      + destruct (accounts d !! to) as [target|] eqn:Hto.
        * erewrite CreateTransaction_deposit; [done | | done].
          simpl. rewrite lookup_insert_ne by done. exact Hto.
        * rewrite CreateTransaction_missing; [done |].
          simpl. by rewrite lookup_insert_ne.
    - by rewrite CreateTransaction_missing. }
  split; [exact Hres |].
  rewrite Hres. unfold transfer_result.
  destruct (accounts d !! from); [| discriminate].
  destruct (PrimFloat.ltb _ _); [discriminate |].
  destruct (String.eqb from to); [discriminate |].
  destruct (accounts d !! to); discriminate.
Qed.

(** X14. A transfer from an account to itself that the balance covers
    returns no error, records the withdrawal and then the deposit, and
    leaves the balance at (balance - amount) + amount in binary64. *)
Theorem Transfer_to_self
    (e : service.env) (d : inMemoryDatabase) (id : string)
    (amount : float) (acc : Account.t) :
  accounts d !! id = Some acc ->
  PrimFloat.ltb (Account.Balance acc) amount = false ->
  let w := service.new_transaction e id enum.Withdrawal amount in
  let dp := service.new_transaction (service.tick e) id enum.Deposit amount in
  exists d',
    service.Transfer id id amount (e, d)
      = (None, (service.tick (service.tick e), d')) /\
    accounts d' =
      <[id := Account.with_Balance acc
                (PrimFloat.add
                   (PrimFloat.sub (Account.Balance acc) amount) amount)]>
        (accounts d) /\
    transactions d' =
      <[id := default [] (transactions d !! id) ++ [w; dp]]> (transactions d).
Proof.
  intros Hacc Hlt w dp.
  rewrite Transfer_steps. cbv zeta. fold w dp. simpl.
  rewrite (CreateTransaction_withdrawal w d acc Hacc eq_refl). simpl.
  rewrite Hlt.
  erewrite CreateTransaction_deposit; [| simpl; apply lookup_insert_eq | done].
  eexists. split; [reflexivity |]. simpl. split.
  - by rewrite insert_insert_eq.
  - rewrite lookup_insert_eq. simpl.
    by rewrite insert_insert_eq, <- app_assoc.
Qed.

End ServiceExtras.

Section AccountServiceFacts.
Import errors memory history ledger.

Implicit Types (e : service.env) (d : inMemoryDatabase).

(** [account_service.CreateAccount] over the in-memory store, step by
    step. *)
Lemma account_CreateAccount_steps e d
    (req : account_service.CreateAccountRequest) :
  account_service.CreateAccount req (e, d) =
    match account_service.req_InitialBalance req with
    | None => (account_service.Panicked, (snd (service.uuid_New e), d))
    | Some balance =>
        let acc := Account.mk (service.uuid_source e (service.uuid_drawn e))
                              (account_service.req_Owner req) balance in
        (account_service.Returned acc,
         (snd (service.uuid_New e), snd (CreateAccount acc d)))
    end.
Proof.
  unfold account_service.CreateAccount, mbind, M_bind, bind, mret, M_ret, ret,
    service.in_env, service.in_db, service.uuid_New.
  simpl. by destruct (account_service.req_InitialBalance req).
Qed.

(** The store [Transfer] leaves is the store after its one or two calls. *)
Lemma Transfer_store e d (from to : string) (amount : float) :
  let w := service.new_transaction e from enum.Withdrawal amount in
  let dp := service.new_transaction (service.tick e) to enum.Deposit amount in
  snd (snd (service.Transfer from to amount (e, d))) =
    match fst (CreateTransaction w d) with
    | Some _ => d
    | None => snd (CreateTransaction dp (snd (CreateTransaction w d)))
    end.
Proof.
  intros w dp. rewrite Transfer_steps. cbv zeta. fold w dp. simpl.
  destruct (CreateTransaction w d) as [[err|] d1] eqn:Hw; simpl.
  - by apply CreateTransaction_error in Hw as [-> _].
  - by destruct (CreateTransaction dp d1) as [r d2].
Qed.

(** [CreateTransaction] leaves the histories of the other ids alone. *)
Lemma CreateTransaction_other_history (tx : Transaction.t) d (k : string) :
  k <> Transaction.AccountID tx ->
  transactions (snd (CreateTransaction tx d)) !! k = transactions d !! k.
Proof.
  intros Hne.
  destruct (CreateTransaction tx d) as [[err|] d1] eqn:Hrun; simpl.
  - by apply CreateTransaction_error in Hrun as [-> _].
  - apply CreateTransaction_commit in Hrun as (acc & _ & -> & _).
    rewrite store_transaction_transactions. by rewrite lookup_insert_ne.
Qed.

(** [CreateTransaction] neither adds nor removes a key of the accounts. *)
Lemma CreateTransaction_same_ids (tx : Transaction.t) d (k : string) :
  accounts (snd (CreateTransaction tx d)) !! k = None
  <-> accounts d !! k = None.
Proof.
  destruct (CreateTransaction_accounts tx d k)
    as [-> | (_ & acc & b & -> & ->)]; done.
Qed.

(** A store whose listed balances are all at or above zero. *)
Lemma no_overdraft_by_listing d :
  Forall (fun entry => PrimFloat.leb 0%float (Account.Balance (snd entry)) = true)
         (map_to_list (accounts d)) ->
  no_overdraft d.
Proof.
  intros Hall k acc Hacc.
  rewrite Forall_forall in Hall.
  apply (Hall (k, acc)). by apply elem_of_map_to_list.
Qed.

End AccountServiceFacts.

Section MoreServiceExtras.
Import errors memory history ledger.

(** X15. Whatever [Transfer] returns, it neither adds nor removes an
    account, and the accounts and histories of every id other than the
    source and the destination are as before. *)
Theorem Transfer_keeps_the_other_accounts
    (e : service.env) (d : inMemoryDatabase) (from to : string)
    (amount : float) (k : string) :
  let d' := snd (snd (service.Transfer from to amount (e, d))) in
  (accounts d' !! k = None <-> accounts d !! k = None)
  /\ (k <> from -> k <> to ->
      accounts d' !! k = accounts d !! k /\
      transactions d' !! k = transactions d !! k).
Proof.
  intros d'. subst d'. rewrite Transfer_store. cbv zeta.
  set (w := service.new_transaction e from enum.Withdrawal amount).
  set (dp := service.new_transaction _ to enum.Deposit amount).
  destruct (fst (CreateTransaction w d)); [done |].
  split.
  - by rewrite !CreateTransaction_same_ids.
  - intros Hf Ht. split.
    + destruct (CreateTransaction_accounts dp (snd (CreateTransaction w d)) k)
        as [-> | [Hk _]]; [| done].
      destruct (CreateTransaction_accounts w d k) as [-> | [Hk _]]; done.
    + by rewrite !CreateTransaction_other_history.
Qed.

(** X16. If no stored balance is below zero, then after a [Transfer] or a
    [service.CreateTransaction] of a finite amount above zero, whatever
    the call returns, no stored balance is below zero. *)
Theorem services_keep_balances_nonnegative
    (e : service.env) (d : inMemoryDatabase) (amount : float) :
  no_overdraft d ->
  binary64.positive_finite amount ->
  (forall from to,
      no_overdraft (snd (snd (service.Transfer from to amount (e, d)))))
  /\ (forall id ty,
        no_overdraft
          (snd (snd (service.CreateTransaction id
                       {| service.req_Type := ty; service.req_Amount := amount |}
                       (e, d))))).
Proof.
  intros Hd Hamount. split.
  - intros from to. rewrite Transfer_store. cbv zeta.
    destruct (fst (CreateTransaction _ d)); [done |].
    apply CreateTransaction_no_overdraft; [| done].
    by apply CreateTransaction_no_overdraft.
  - intros id ty. rewrite service_CreateTransaction_steps. cbv zeta. simpl.
    set (tx := service.new_transaction e id _ amount).
    pose proof (CreateTransaction_no_overdraft tx d Hd Hamount) as H.
    by destruct (CreateTransaction tx d) as [[err|] d1].
Qed.

(** X17. After any sequence of [CreateAccount] and [CreateTransaction]
    calls on a new store, an id is unknown to [GetAccountByID] exactly when
    no account was created under it; otherwise the account read is the one
    given to the latest [CreateAccount] of the id with its balance replaced
    by the replay, from that account's balance, of the history that
    [GetTransactionsByAccountID] returns. *)
Theorem balance_is_the_replay_of_the_history (cs : list call) (id : string) :
  let '(log, d) := run cs NewInMemoryDatabase in
  match opening id log with
  | None => fst (GetAccountByID id d) = inr ErrAccountNotFound
  | Some a =>
      exists txs,
        fst (GetTransactionsByAccountID id d) = inl txs /\
        fst (GetAccountByID id d) = inl (replay a txs)
  end.
Proof.
  pose proof (run_replay cs NewInMemoryDatabase id None [] (lookup_empty _))
    as Hreplay.
  pose proof (run_history cs NewInMemoryDatabase id) as Hhist.
  pose proof (run_same_keys cs NewInMemoryDatabase same_keys_new id) as Hkeys.
  destruct (run cs NewInMemoryDatabase) as [log d].
  simpl in Hreplay, Hhist, Hkeys.
  rewrite lookup_empty in Hhist. simpl in Hhist.
  unfold opening, GetAccountByID, GetTransactionsByAccountID.
  rewrite Hreplay.
  destruct (fold_left (opening_step id) log None) as [a|]; simpl; [| done].
  rewrite Hreplay in Hkeys. simpl in Hkeys.
  destruct (transactions d !! id) as [txs|].
  - exists txs. simpl in Hhist. by rewrite Hhist.
  - destruct Hkeys as [_ Hk]. discriminate (Hk eq_refl).
Qed.

(** X18. [account_service.CreateAccount] panics on a nil initial balance,
    after taking an identifier and before calling the store.  Otherwise it
    returns the account made of the next identifier, the request's owner
    and its initial balance; [GetAccountByID] of that id then returns the
    account, its history is empty, and the other ids are as before. *)
Theorem account_service_CreateAccount_stores
    (e : service.env) (d : inMemoryDatabase)
    (req : account_service.CreateAccountRequest) :
  match account_service.req_InitialBalance req with
  | None =>
      account_service.CreateAccount req (e, d)
        = (account_service.Panicked, (snd (service.uuid_New e), d))
  | Some balance =>
      let acc := Account.mk (service.uuid_source e (service.uuid_drawn e))
                            (account_service.req_Owner req) balance in
      exists s',
        account_service.CreateAccount req (e, d)
          = (account_service.Returned acc, s') /\
        fst (account_service.GetAccountByID (Account.ID acc) s') = inl acc /\
        fst (service.GetTransactionsByAccountID (Account.ID acc) s') = inl [] /\
        (forall k, k <> Account.ID acc ->
           accounts (snd s') !! k = accounts d !! k /\
           transactions (snd s') !! k = transactions d !! k)
  end.
Proof.
  rewrite account_CreateAccount_steps.
  destruct (account_service.req_InitialBalance req) as [balance|]; [| done].
  cbv zeta. eexists. split; [reflexivity |].
  unfold account_service.GetAccountByID, service.GetTransactionsByAccountID,
    mbind, M_bind, bind, service.in_db. simpl.
  unfold GetAccountByID, GetTransactionsByAccountID. simpl.
  rewrite !lookup_insert_eq. simpl. split; [done |]. split; [done |].
  intros k Hk. by rewrite !lookup_insert_ne.
Qed.

(** X19. When every request carries an initial balance, the identifiers
    drawn are pairwise different and none of them is stored yet, creating
    the accounts one after the other returns one account per request, with
    the requests' owners and the drawn identifiers in order, and
    [GetAllAccounts] then returns that many accounts more. *)
Theorem create_all_counts
    (requests : list account_service.CreateAccountRequest) :
  forall (e : service.env) (d : inMemoryDatabase),
    let ids := service.uuid_source e
                 <$> seq (service.uuid_drawn e) (length requests) in
    Forall (fun r => is_Some (account_service.req_InitialBalance r)) requests ->
    NoDup ids ->
    Forall (fun id => accounts d !! id = None) ids ->
    exists accs s',
      account_service.create_all requests (e, d)
        = (account_service.Returned accs, s') /\
      Account.Owner <$> accs = account_service.req_Owner <$> requests /\
      Account.ID <$> accs = ids /\
      length (fst (account_service.GetAllAccounts s'))
        = (length (fst (GetAllAccounts d)) + length requests)%nat.
Proof.
  induction requests as [|req rest IH]; intros e d ids Hbal Hnodup Hfresh.
  - exists [], (e, d). simpl. repeat split.
    unfold account_service.GetAllAccounts, service.in_db. simpl. lia.
  - subst ids. simpl in Hnodup, Hfresh.
    apply Forall_cons in Hbal as [[balance Hbalance] Hbal].
    apply NoDup_cons in Hnodup as [Hnotin Hnodup].
    apply Forall_cons in Hfresh as [Hnew Hfresh].
    set (id := service.uuid_source e (service.uuid_drawn e)) in *.
    set (acc := Account.mk id (account_service.req_Owner req) balance).
    destruct (IH (snd (service.uuid_New e)) (snd (CreateAccount acc d)))
      as (accs & s' & Hrun & Howners & Hids & Hcount).
    + exact Hbal.
    + exact Hnodup.
    + simpl. apply Forall_forall. intros k Hk.
      rewrite lookup_insert_ne.
      * rewrite Forall_forall in Hfresh. by apply Hfresh.
      * intros <-. by apply Hnotin.
    + exists (acc :: accs), s'.
      cbn [account_service.create_all].
      unfold mbind at 1, M_bind at 1, bind at 1.
      rewrite account_CreateAccount_steps, Hbalance. cbv zeta. fold id acc.
      unfold mbind at 1, M_bind at 1, bind at 1. rewrite Hrun.
      cbv beta iota. unfold mret, M_ret, ret.
      split; [reflexivity |].
      split; [rewrite !fmap_cons; f_equal; exact Howners |].
      split; [rewrite fmap_cons; simpl; f_equal; exact Hids |].
      rewrite Hcount. unfold GetAllAccounts. simpl.
      rewrite !length_fmap, !length_map_to_list.
      rewrite map_size_insert_None by exact Hnew. lia.
Qed.

End MoreServiceExtras.

Section ServiceScenarios.
Import errors memory history ledger.



Lemma Transfer_to_self_witness :
  exists d',
    service.Transfer "A" "A" 50%float (sample.world, sample.bank)
      = (None, (service.tick (service.tick sample.world), d')) /\
    accounts d' !! "A" = Some (Account.mk "A" "Alice" 100%float) /\
    transactions d' !! "A" =
      Some [Transaction.mk "x" "A" enum.Withdrawal 50%float 0%Z;
            Transaction.mk "xx" "A" enum.Deposit 50%float 1%Z].
Proof.
  destruct (Transfer_to_self sample.world sample.bank "A" 50%float sample.alice)
    as (d' & Hrun & Haccs & Htxs).
  - vm_compute; reflexivity.
  - vm_compute; reflexivity.
  - exists d'. split; [exact Hrun |].
    rewrite Haccs, Htxs. split; vm_compute; reflexivity.
Defined.

Lemma services_keep_balances_nonnegative_witness :
  no_overdraft
    (snd (snd (service.Transfer "A" "B" 50%float (sample.world, sample.bank))))
  /\ no_overdraft
       (snd (snd (service.CreateTransaction "C"
                    {| service.req_Type := "withdrawal";
                       service.req_Amount := 50%float |}
                    (sample.world, sample.bank)))).
Proof.
  destruct (services_keep_balances_nonnegative
              sample.world sample.bank 50%float) as [Htransfer Hcreate].
  - apply no_overdraft_by_listing. vm_compute.
    repeat (constructor; [reflexivity |]). constructor.
  - split; reflexivity.
  - split; [apply Htransfer | apply Hcreate].
Defined.

Lemma create_all_counts_witness :
  exists accs s',
    account_service.create_all [cases.open_alice; cases.open_bob]
      (sample.world, NewInMemoryDatabase)
      = (account_service.Returned accs, s') /\
    Account.Owner <$> accs = ["Alice"; "Bob"] /\
    Account.ID <$> accs = ["x"; "xx"] /\
    length (fst (account_service.GetAllAccounts s')) = 2%nat.
Proof.
  destruct (create_all_counts [cases.open_alice; cases.open_bob]
              sample.world NewInMemoryDatabase)
    as (accs & s' & Hrun & Howners & Hids & Hcount).
  - repeat constructor; by eexists.
  - apply (bool_decide_unpack _). vm_compute. reflexivity.
  - repeat constructor.
  - exists accs, s'. split; [exact Hrun |]. split; [exact Howners |].
    split; [exact Hids |]. exact Hcount.
Defined.

End ServiceScenarios.
